(** * BMPImageEditor: a shallow embedding of [src/BMPImageEditor.cpp]

    The class [BMPImageEditor] reads an uncompressed 24-bit BMP file into a
    pixel matrix ([read]), draws a cross over the two diagonals
    ([drawCross]) and writes the image back ([save]).

    Modelling choices, all taken from the source:
    - [uint32_t]/[uint16_t] values are [Z] with the wrap-around of every
      arithmetic step written out ([wrap32]); a conversion to [int] is
      [to_int32] (two's complement, as on every mainstream compiler);
    - the two packed structs are records; reading raw bytes into them
      ([reinterpret_cast<char*>]) goes through their little-endian object
      representation ([file_header_bytes], [parse_file_header], ...), so a
      short read overwrites only the bytes that arrived;
    - a [std::ifstream] is the file contents, a read position and the
      fail bit; text and binary mode coincide (POSIX);
    - [std::vector::operator[]] out of range, and overflow of an [int] loop
      counter, are undefined behaviour: the model stops with [Undefined];
    - a [throw] is the outcome [Throws], carrying the state of the object
      at the moment of the throw (the members are written in place);
    - memory allocation is assumed to succeed. *)

From Stdlib Require Import String.
From Stdlib Require Import ZArith List Lia Bool Btauto.
From coqutil Require Import Byte Word.LittleEndianList Z.bitblast.
Import ListNotations.
Local Open Scope Z_scope.

(** ** Machine integers *)

Definition INT_MAX : Z := 2147483647.

(** Arithmetic on [uint32_t]. *)
Definition wrap32 (z : Z) : Z := z mod 2 ^ 32.

(** Conversion of a 32-bit pattern to [int] / [int32_t]. *)
Definition to_int32 (z : Z) : Z :=
  let m := wrap32 z in if m <? 2 ^ 31 then m else m - 2 ^ 32.

(** Conversion to [size_t] (64-bit). *)
Definition to_size_t (z : Z) : Z := z mod 2 ^ 64.

(** ** The two packed structs *)

Record BMPFileHeader : Type := {
  type_of_file : Z;          (* uint16_t *)
  size_of_file : Z;          (* uint32_t *)
  reserved_1 : Z;            (* uint16_t *)
  reserved_2 : Z;            (* uint16_t *)
  offset_to_pixel_data : Z   (* uint32_t *)
}.

Record BMPFileInfoBlock : Type := {
  size_of_info_block : Z;        (* uint32_t *)
  width : Z;                     (* uint32_t *)
  height : Z;                    (* uint32_t *)
  count_of_planes : Z;           (* uint16_t *)
  color_depth_in_bits : Z;       (* uint16_t *)
  type_of_compression : Z;       (* uint32_t *)
  size_of_image : Z;             (* uint32_t *)
  horizontal_resolution : Z;     (* int32_t *)
  vertical_resolution : Z;       (* int32_t *)
  count_of_colors : Z;           (* uint32_t *)
  count_of_important_colors : Z  (* uint32_t *)
}.

(** [sizeof(BMPFileHeader)] and [sizeof(BMPFileInfoBlock)] under
    [#pragma pack(push, 1)]. *)
Definition sizeof_BMPFileHeader : nat := 14.
Definition sizeof_BMPFileInfoBlock : nat := 40.

(** The [n] bytes at offset [off] of a byte sequence. *)
Definition field (off n : nat) (m : list byte) : list byte :=
  firstn n (skipn off m).

(** Object representation of the structs (little-endian host). *)
Definition file_header_bytes (h : BMPFileHeader) : list byte :=
  le_split 2 (type_of_file h) ++ le_split 4 (size_of_file h) ++
  le_split 2 (reserved_1 h) ++ le_split 2 (reserved_2 h) ++
  le_split 4 (offset_to_pixel_data h).

Definition parse_file_header (m : list byte) : BMPFileHeader :=
  {| type_of_file := le_combine (field 0 2 m);
     size_of_file := le_combine (field 2 4 m);
     reserved_1 := le_combine (field 6 2 m);
     reserved_2 := le_combine (field 8 2 m);
     offset_to_pixel_data := le_combine (field 10 4 m) |}.

Definition info_block_bytes (b : BMPFileInfoBlock) : list byte :=
  le_split 4 (size_of_info_block b) ++ le_split 4 (width b) ++
  le_split 4 (height b) ++ le_split 2 (count_of_planes b) ++
  le_split 2 (color_depth_in_bits b) ++ le_split 4 (type_of_compression b) ++
  le_split 4 (size_of_image b) ++ le_split 4 (horizontal_resolution b) ++
  le_split 4 (vertical_resolution b) ++ le_split 4 (count_of_colors b) ++
  le_split 4 (count_of_important_colors b).

Definition parse_info_block (m : list byte) : BMPFileInfoBlock :=
  {| size_of_info_block := le_combine (field 0 4 m);
     width := le_combine (field 4 4 m);
     height := le_combine (field 8 4 m);
     count_of_planes := le_combine (field 12 2 m);
     color_depth_in_bits := le_combine (field 14 2 m);
     type_of_compression := le_combine (field 16 4 m);
     size_of_image := le_combine (field 20 4 m);
     horizontal_resolution := to_int32 (le_combine (field 24 4 m));
     vertical_resolution := to_int32 (le_combine (field 28 4 m));
     count_of_colors := le_combine (field 32 4 m);
     count_of_important_colors := le_combine (field 36 4 m) |}.

(** [istream::read] into an object: the bytes that arrived replace the
    first bytes of the old representation, the rest stays. *)
Definition overwrite {A : Type} (new old : list A) : list A :=
  new ++ skipn (length new) old.

(** ** The object state *)

Definition grid : Type := list (list Z).

Record BMPImageEditor : Type := {
  file_header : BMPFileHeader;
  info_block : BMPFileInfoBlock;
  pixels : grid;            (* std::vector<std::vector<uint32_t>> *)
  fileWasRead : bool
}.

(** A default-constructed editor: [pixels] is empty and [fileWasRead] is
    [false]; the two structs have no initialiser, so they hold whatever
    the storage held ([fh0], [ib0]). *)
Definition new_editor (fh0 : BMPFileHeader) (ib0 : BMPFileInfoBlock)
  : BMPImageEditor :=
  {| file_header := fh0; info_block := ib0; pixels := []; fileWasRead := false |}.

Definition zero_file_header : BMPFileHeader :=
  {| type_of_file := 0; size_of_file := 0; reserved_1 := 0; reserved_2 := 0;
     offset_to_pixel_data := 0 |}.

Definition zero_info_block : BMPFileInfoBlock :=
  {| size_of_info_block := 0; width := 0; height := 0; count_of_planes := 0;
     color_depth_in_bits := 0; type_of_compression := 0; size_of_image := 0;
     horizontal_resolution := 0; vertical_resolution := 0;
     count_of_colors := 0; count_of_important_colors := 0 |}.

(** ** Exceptions and outcomes *)

(** One constructor per [throw] in the source. *)
Inductive error : Type :=
| CannotOpen      (* "Error! It's not possible to open the file on the path" *)
| ReadError       (* "Oops! An error occurred while reading the file." *)
| NotBmpType      (* "Error! The specified file is not of the BMP type." *)
| BadColorDepth   (* "... only works with images with a color depth of 24 bits." *)
| NotReadYet.     (* "Error! First you need to read the data from the file." *)

Inductive outcome (A : Type) : Type :=
| Returns (a : A) (st : BMPImageEditor)
| Throws (e : error) (st : BMPImageEditor)
| Undefined.
Arguments Returns {A} a st.
Arguments Throws {A} e st.
Arguments Undefined {A}.

(** ** std::ifstream *)

Record ifstream : Type := {
  contents : list byte;
  gpos : nat;
  failbit : bool
}.

Definition open (data : list byte) : ifstream :=
  {| contents := data; gpos := 0; failbit := false |}.

(** The bytes from the read position on. *)
Definition remaining (s : ifstream) : list byte := skipn (gpos s) (contents s).

(** [inp_file.read(buf, n)]: nothing happens on a failed stream; otherwise
    up to [n] bytes are extracted, and fewer than [n] set the fail bit. *)
Definition stream_read (n : nat) (s : ifstream) : list byte * ifstream :=
  if failbit s then ([], s)
  else
    let got := firstn n (remaining s) in
    (got, {| contents := contents s;
             gpos := (gpos s + length got)%nat;
             failbit := (length got <? n)%nat |}).

(** [inp_file.seekg(off, std::ios::beg)]; a failed stream is left alone, and
    a position past the end of the file is accepted. *)
Definition seekg_beg (off : Z) (s : ifstream) : ifstream :=
  if failbit s then s
  else if off <? 0 then {| contents := contents s; gpos := gpos s; failbit := true |}
  else {| contents := contents s; gpos := Z.to_nat off; failbit := false |}.

(** [inp_file.seekg(off, std::ios::cur)]. *)
Definition seekg_cur (off : Z) (s : ifstream) : ifstream :=
  if failbit s then s
  else if Z.of_nat (gpos s) + off <? 0
       then {| contents := contents s; gpos := gpos s; failbit := true |}
  else {| contents := contents s; gpos := Z.to_nat (Z.of_nat (gpos s) + off);
          failbit := false |}.

(** Reading one [uint8_t] that was initialised to 0. *)
Definition read_u8 (s : ifstream) : Z * ifstream :=
  match stream_read 1 s with
  | (b :: _, s') => (byte.unsigned b, s')
  | ([], s') => (0, s')
  end.

(** ** The pixel matrix *)

(** Replace the element at index [n]. *)
Fixpoint update {A : Type} (n : nat) (v : A) (l : list A) : list A :=
  match l, n with
  | [], _ => []
  | _ :: t, O => v :: t
  | h :: t, S k => h :: update k v t
  end.

(** [pixels[r][x]] as an rvalue; [None] is an access out of range. *)
Definition grid_get (r x : Z) (px : grid) : option Z :=
  if (r <? 0) || (x <? 0) then None
  else match nth_error px (Z.to_nat r) with
       | None => None
       | Some row => nth_error row (Z.to_nat x)
       end.

(** [pixels[r][x] = c]. *)
Definition grid_set (r x : Z) (c : Z) (px : grid) : option grid :=
  if (r <? 0) || (x <? 0) then None
  else match nth_error px (Z.to_nat r) with
       | None => None
       | Some row =>
           if (Z.to_nat x <? length row)%nat
           then Some (update (Z.to_nat r) (update (Z.to_nat x) c row) px)
           else None
       end.

(** [pixels.resize(n, fill)]: existing rows are kept as they are. *)
Definition resize (n : Z) (fill : list Z) (px : grid) : grid :=
  firstn (Z.to_nat n) px ++ repeat fill (Z.to_nat n - length px).

(** [(blue << 16) | (green << 8) | red] on promoted [uint8_t] values. *)
Definition pack_color (blue green red : Z) : Z :=
  Z.lor (Z.lor (Z.shiftl blue 16) (Z.shiftl green 8)) red.

(** ** read *)

(** The inner loop [for (int x = 0; x < info_block.width; ++x)], with [n]
    iterations left. *)
Fixpoint read_row (n : nat) (x row_index : Z) (s : ifstream) (px : grid)
  : option (ifstream * grid) :=
  match n with
  | O => Some (s, px)
  | S n' =>
      let '(blue, s1) := read_u8 s in
      let '(green, s2) := read_u8 s1 in
      let '(red, s3) := read_u8 s2 in
      let color := pack_color blue green red in
      match grid_set row_index x color px with
      | None => None
      | Some px' => read_row n' (x + 1) row_index s3 px'
      end
  end.

(** [int row_size = (info_block.width * bytes_per_pixel + 3) & (~3)]. *)
Definition row_size (ib : BMPFileInfoBlock) : Z :=
  let bytes_per_pixel := color_depth_in_bits ib / 8 in
  to_int32 (Z.land (wrap32 (wrap32 (width ib * bytes_per_pixel) + 3))
                   (wrap32 (Z.lnot 3))).

(** [int padding = row_size - (info_block.width * bytes_per_pixel)]. *)
Definition row_padding (ib : BMPFileInfoBlock) : Z :=
  let bytes_per_pixel := color_depth_in_bits ib / 8 in
  to_int32 (wrap32 (row_size ib - wrap32 (width ib * bytes_per_pixel))).

(** The outer loop [for (int y = 0; y < info_block.height; ++y)], with [n]
    iterations left. *)
Fixpoint read_rows (ib : BMPFileInfoBlock) (n : nat) (y : Z)
    (s : ifstream) (px : grid) : option (ifstream * grid) :=
  match n with
  | O => Some (s, px)
  | S n' =>
      let row_index := to_int32 (wrap32 (wrap32 (height ib - y) - 1)) in
      if INT_MAX <? width ib then None
      else
        match read_row (Z.to_nat (width ib)) 0 row_index s px with
        | None => None
        | Some (s1, px1) =>
            let padding := row_padding ib in
            let s2 := if 0 <? padding then seekg_cur padding s1 else s1 in
            read_rows ib n' (y + 1) s2 px1
        end
  end.

Definition filesystem : Type := string -> option (list byte).

Definition read (fs : filesystem) (file_path : string) (st : BMPImageEditor)
  : outcome unit :=
  match fs file_path with
  | None => Throws CannotOpen st
  | Some data =>
      let s0 := open data in
      let '(got1, s1) := stream_read sizeof_BMPFileHeader s0 in
      let fh := parse_file_header
                  (overwrite got1 (file_header_bytes (file_header st))) in
      let st1 := {| file_header := fh; info_block := info_block st;
                    pixels := pixels st; fileWasRead := fileWasRead st |} in
      if failbit s1 then Throws ReadError st1
      else
        let '(got2, s2) := stream_read sizeof_BMPFileInfoBlock s1 in
        let ib := parse_info_block
                    (overwrite got2 (info_block_bytes (info_block st))) in
        let st2 := {| file_header := fh; info_block := ib;
                      pixels := pixels st; fileWasRead := fileWasRead st |} in
        if failbit s2 then Throws ReadError st2
        else if negb (type_of_file fh =? 19778) (* 0x4D42 *)
        then Throws NotBmpType st2
        else if negb (color_depth_in_bits ib =? 24)
        then Throws BadColorDepth st2
        else
          let s3 := seekg_beg (offset_to_pixel_data fh) s2 in
          let px := resize (height ib) (repeat 0 (Z.to_nat (width ib)))
                           (pixels st) in
          if INT_MAX <? height ib then Undefined
          else
            match read_rows ib (Z.to_nat (height ib)) 0 s3 px with
            | None => Undefined
            | Some (_, px') =>
                Returns tt {| file_header := fh; info_block := ib;
                              pixels := px'; fileWasRead := true |}
            end
  end.

(** ** drawCross *)

(** The loop [for (int i = 0; i < std::min(height, width); ++i)], with [n]
    iterations left. *)
Fixpoint cross_loop (ib : BMPFileInfoBlock) (color : Z) (n : nat) (i : Z)
    (px : grid) : option grid :=
  match n with
  | O => Some px
  | S n' =>
      match grid_set i i color px with
      | None => None
      | Some px1 =>
          match grid_set i (wrap32 (wrap32 (width ib - i) - 1)) color px1 with
          | None => None
          | Some px2 => cross_loop ib color n' (i + 1) px2
          end
      end
  end.

Definition drawCross (blue green red : byte) (st : BMPImageEditor)
  : outcome unit :=
  if negb (fileWasRead st) then Throws NotReadYet st
  else
    let color := pack_color (byte.unsigned blue) (byte.unsigned green)
                            (byte.unsigned red) in
    let ib := info_block st in
    let bound := Z.min (height ib) (width ib) in
    if INT_MAX <? bound then Undefined
    else
      match cross_loop ib color (Z.to_nat bound) 0 (pixels st) with
      | None => Undefined
      | Some px => Returns tt {| file_header := file_header st;
                                 info_block := ib;
                                 pixels := px;
                                 fileWasRead := fileWasRead st |}
      end.

(** ** save *)

(** [int32_t row_stride = ((width * color_depth_in_bits + 31) / 32) * 4]. *)
Definition row_stride (ib : BMPFileInfoBlock) : Z :=
  to_int32 (wrap32
    (wrap32 (wrap32 (width ib * color_depth_in_bits ib) + 31) / 32 * 4)).

(** The three bytes pushed to [row_data] for one pixel. *)
Definition unpack_color (p : Z) : list byte :=
  [ byte.of_Z (Z.shiftr (Z.land p (Z.shiftl 255 16)) 16);
    byte.of_Z (Z.shiftr (Z.land p (Z.shiftl 255 8)) 8);
    byte.of_Z (Z.land p 255) ].

(** The inner loop [for (int x = 0; x < info_block.width; ++x)] filling
    [row_data], with [n] iterations left. *)
Fixpoint save_row (n : nat) (x y : Z) (px : grid) (row_data : list byte)
  : option (list byte) :=
  match n with
  | O => Some row_data
  | S n' =>
      match grid_get y x px with
      | None => None
      | Some p => save_row n' (x + 1) y px (row_data ++ unpack_color p)
      end
  end.

(** [while (row_data.size() < static_cast<size_t>(row_stride)) push_back(0)]. *)
Definition pad_row (stride : Z) (row_data : list byte) : list byte :=
  row_data ++
  repeat Byte.x00 (Z.to_nat (to_size_t stride - Z.of_nat (length row_data))).

(** The outer loop [for (int y = height - 1; y >= 0; --y)], with [n]
    iterations left; [out] is what has been written to [out_file]. *)
Fixpoint save_rows (ib : BMPFileInfoBlock) (n : nat) (y : Z) (px : grid)
    (out : list byte) : option (list byte) :=
  match n with
  | O => Some out
  | S n' =>
      if INT_MAX <? width ib then None
      else
        match save_row (Z.to_nat (width ib)) 0 y px [] with
        | None => None
        | Some row_data =>
            save_rows ib n' (y - 1) px (out ++ pad_row (row_stride ib) row_data)
        end
  end.

(** [save] returns the bytes written to [out_file], in order: the new
    contents of the file when it could be opened (the source does not test
    the output stream). There is no [throw] in [save]. *)
Definition save (st : BMPImageEditor) : outcome (list byte) :=
  let ib := info_block st in
  let out := file_header_bytes (file_header st) ++ info_block_bytes ib in
  let y0 := to_int32 (wrap32 (height ib - 1)) in
  match save_rows ib (Z.to_nat (y0 + 1)) y0 (pixels st) out with
  | None => Undefined
  | Some bytes => Returns bytes st
  end.

(** ** Vocabulary for the properties *)

(** The structs as [read] fills them from a file of at least 54 bytes. *)
Definition header_of (data : list byte) : BMPFileHeader :=
  parse_file_header (field 0 sizeof_BMPFileHeader data).

Definition info_of (data : list byte) : BMPFileInfoBlock :=
  parse_info_block (field sizeof_BMPFileHeader sizeof_BMPFileInfoBlock data).

(** The stream as [read] leaves it after [seekg(offset_to_pixel_data)]. *)
Definition pixel_stream (data : list byte) : ifstream :=
  {| contents := data;
     gpos := Z.to_nat (offset_to_pixel_data (header_of data));
     failbit := false |}.

(** A pixel as it lies on disk: blue, green, red. *)
Definition triple : Type := (byte * byte * byte)%type.

Definition triple_bytes (t : triple) : list byte :=
  let '(b, g, r) := t in [b; g; r].

Definition triple_color (t : triple) : Z :=
  let '(b, g, r) := t in
  pack_color (byte.unsigned b) (byte.unsigned g) (byte.unsigned r).

(** A row on disk: its pixels, then the padding bytes. *)
Record disk_row : Type := { row_cells : list triple; row_pad : list byte }.

Definition disk_row_bytes (r : disk_row) : list byte :=
  flat_map triple_bytes (row_cells r) ++ row_pad r.

Definition pixel_section (rows : list disk_row) : list byte :=
  flat_map disk_row_bytes rows.

(** The stride [((3w+3)/4)*4] over the integers, without wrap-around. *)
Definition disk_stride (w : Z) : Z := (3 * w + 3) / 4 * 4.

(** A row of [w] pixels padded to the stride. *)
Definition row_fits (w : Z) (r : disk_row) : Prop :=
  Z.of_nat (length (row_cells r)) = w /\
  Z.of_nat (length (row_pad r)) = disk_stride w - 3 * w.

Definition zero_padded (r : disk_row) : Prop :=
  row_pad r = repeat Byte.x00 (length (row_pad r)).

(** What the pixel loops of [read] extract from a stream, without the
    matrix: one pixel, one row, [n] rows with the padding skipped. *)
Definition scan_pixel (s : ifstream) : Z * ifstream :=
  let '(blue, s1) := read_u8 s in
  let '(green, s2) := read_u8 s1 in
  let '(red, s3) := read_u8 s2 in
  (pack_color blue green red, s3).

Fixpoint scan_row (n : nat) (s : ifstream) : list Z * ifstream :=
  match n with
  | O => ([], s)
  | S n' =>
      let '(c, s1) := scan_pixel s in
      let '(cs, s2) := scan_row n' s1 in
      (c :: cs, s2)
  end.

Fixpoint scan_rows (ib : BMPFileInfoBlock) (n : nat) (s : ifstream)
  : list (list Z) * ifstream :=
  match n with
  | O => ([], s)
  | S n' =>
      let '(row, s1) := scan_row (Z.to_nat (width ib)) s in
      let s2 := if 0 <? row_padding ib
                then seekg_cur (row_padding ib) s1 else s1 in
      let '(rows, s3) := scan_rows ib n' s2 in
      (row :: rows, s3)
  end.

(** Rows of a matrix overwritten, one by one, by scanned rows. *)
Definition overlay (scanned : list (list Z)) (old : grid) : grid :=
  map (fun p => overwrite (fst p) (snd p)) (combine scanned old).

(** The matrix [read] leaves behind, from the file and the old matrix. *)
Definition decoded_grid (data : list byte) (old : grid) : grid :=
  let ib := info_of data in
  rev (overlay (fst (scan_rows ib (Z.to_nat (height ib)) (pixel_stream data)))
               (rev (resize (height ib) (repeat 0 (Z.to_nat (width ib))) old))).

(** The bytes [save] writes for one matrix row. *)
Definition encode_row (ib : BMPFileInfoBlock) (row : list Z) : list byte :=
  pad_row (row_stride ib)
          (flat_map unpack_color (firstn (Z.to_nat (width ib)) row)).

(** The dimensions for which the [int] loop counters of [read] do not
    overflow. *)
Definition dims_ok (ib : BMPFileInfoBlock) : Prop :=
  0 <= width ib /\ height ib <= INT_MAX /\
  (height ib = 0 \/ width ib <= INT_MAX).

(** A file on which [read] reaches the pixel loops: both structs are
    there, the signature is "BM" and the depth is 24. *)
Definition readable (data : list byte) : Prop :=
  (54 <= length data)%nat /\
  type_of_file (header_of data) = 19778 /\
  color_depth_in_bits (info_of data) = 24 /\
  dims_ok (info_of data).

(** The rows that [resize] keeps from an earlier image are wide enough
    for the new one. A default-constructed editor has none. *)
Definition reusable (ib : BMPFileInfoBlock) (px : grid) : Prop :=
  Forall (fun row => width ib <= Z.of_nat (length row))
         (firstn (Z.to_nat (height ib)) px).

(** One row of the cross: the two cells [drawCross] assigns in row [i]. *)
Definition cross_row (w color i : Z) (row : list Z) : list Z :=
  update (Z.to_nat (w - 1 - i)) color (update (Z.to_nat i) color row).

(** The first [n] rows of [rows], numbered from [i], with the cross drawn. *)
Fixpoint cross_rows (w color : Z) (n : nat) (i : Z) (rows : grid) : grid :=
  match n, rows with
  | S n', row :: rest =>
      cross_row w color i row :: cross_rows w color n' (i + 1) rest
  | _, _ => rows
  end.

(** The cell (row [r], column [x]) lies on the cross. *)
Definition on_cross (ib : BMPFileInfoBlock) (r x : Z) : bool :=
  (0 <=? r) && (r <? Z.min (height ib) (width ib)) &&
  ((x =? r) || (x =? width ib - 1 - r)).

(** The matrix has [height] rows of at least [width] cells. *)
Definition grid_fits (ib : BMPFileInfoBlock) (px : grid) : Prop :=
  Z.of_nat (length px) = height ib /\
  Forall (fun row => width ib <= Z.of_nat (length row)) px.

(** The file holds the image [rows] at the declared offset, followed by
    [rest]: [height] rows of [width] pixels, each padded to the stride. *)
Definition holds_image (data : list byte) (rows : list disk_row)
    (rest : list byte) : Prop :=
  skipn (Z.to_nat (offset_to_pixel_data (header_of data))) data
    = pixel_section rows ++ rest /\
  Z.of_nat (length rows) = height (info_of data) /\
  Forall (row_fits (width (info_of data))) rows.

(** A well-formed uncompressed 24-bit BMP file: readable, compression 0,
    and an image whose padding bytes are zero. *)
Definition well_formed_bmp (data : list byte) (rows : list disk_row)
    (rest : list byte) : Prop :=
  readable data /\
  type_of_compression (info_of data) = 0 /\
  holds_image data rows rest /\
  Forall zero_padded rows.

(** ** Example files *)

Definition bytes (l : list Z) : list byte := map byte.of_Z l.

(** The 54 bytes of the two structs of a small 24-bit image: signature
    [m0 m1], pixel data at [offset], [w] by [h] pixels, a pixel section of
    [image_size] bytes (every number below 128). *)
Definition small_headers (m0 m1 offset w h compression image_size : Z)
  : list byte :=
  bytes [ m0; m1;                          (* type_of_file *)
          offset + image_size; 0; 0; 0;    (* size_of_file *)
          0; 0;  0; 0;                     (* reserved_1, reserved_2 *)
          offset; 0; 0; 0;                 (* offset_to_pixel_data *)
          40; 0; 0; 0;                     (* size_of_info_block *)
          w; 0; 0; 0;                      (* width *)
          h; 0; 0; 0;                      (* height *)
          1; 0;                            (* count_of_planes *)
          24; 0;                           (* color_depth_in_bits *)
          compression; 0; 0; 0;            (* type_of_compression *)
          image_size; 0; 0; 0;             (* size_of_image *)
          19; 11; 0; 0;                    (* horizontal_resolution, 2835 *)
          19; 11; 0; 0;                    (* vertical_resolution, 2835 *)
          0; 0; 0; 0;                      (* count_of_colors *)
          0; 0; 0; 0 ].                    (* count_of_important_colors *)

(** The two disk rows of a 2x2 image: R0 (bottom) is stored first. *)
Definition row_R0 : disk_row :=
  {| row_cells := [(Byte.x01, Byte.x02, Byte.x03); (Byte.x04, Byte.x05, Byte.x06)];
     row_pad := [Byte.x00; Byte.x00] |}.
Definition row_R1 : disk_row :=
  {| row_cells := [(Byte.x07, Byte.x08, Byte.x09); (Byte.x0a, Byte.x0b, Byte.x0c)];
     row_pad := [Byte.x00; Byte.x00] |}.

Definition image_2x2 : list byte :=
  small_headers 66 77 54 2 2 0 16 ++ pixel_section [row_R0; row_R1].

(** The same image cut after the first pixel. *)
Definition truncated_2x2 : list byte :=
  small_headers 66 77 54 2 2 0 16 ++ bytes [1; 2; 3].

(** The same image with [type_of_compression] = 1. *)
Definition compressed_2x2 : list byte :=
  small_headers 66 77 54 2 2 1 16 ++ pixel_section [row_R0; row_R1].

(** The 2x2 image with four more bytes between the info block and the
    pixel data, and the offset 58 that goes with them. *)
Definition gap_2x2 : list byte :=
  small_headers 66 77 58 2 2 0 16 ++ bytes [255; 255; 255; 255] ++
  pixel_section [row_R0; row_R1].

(** The 2x2 image with padding bytes that are not zero, and two more
    bytes after the pixel section. *)
Definition row_Q0 : disk_row :=
  {| row_cells := row_cells row_R0; row_pad := [Byte.xaa; Byte.xbb] |}.
Definition row_Q1 : disk_row :=
  {| row_cells := row_cells row_R1; row_pad := [Byte.xcc; Byte.xdd] |}.

Definition padded_2x2 : list byte :=
  small_headers 66 77 54 2 2 0 16 ++ pixel_section [row_Q0; row_Q1] ++
  bytes [238; 255].

(** The two disk rows of a 3x2 image; the stride is 12, the padding 3. *)
Definition row_S0 : disk_row :=
  {| row_cells := [(Byte.x10, Byte.x11, Byte.x12); (Byte.x13, Byte.x14, Byte.x15);
                   (Byte.x16, Byte.x17, Byte.x18)];
     row_pad := [Byte.x00; Byte.x00; Byte.x00] |}.
Definition row_S1 : disk_row :=
  {| row_cells := [(Byte.x20, Byte.x21, Byte.x22); (Byte.x23, Byte.x24, Byte.x25);
                   (Byte.x26, Byte.x27, Byte.x28)];
     row_pad := [Byte.x00; Byte.x00; Byte.x00] |}.

Definition image_3x2 : list byte :=
  small_headers 66 77 54 3 2 0 24 ++ pixel_section [row_S0; row_S1].

(** The 3x2 image with the signature "XX". *)
Definition not_bmp_3x2 : list byte :=
  small_headers 88 88 54 3 2 0 24 ++ pixel_section [row_S0; row_S1].

(** Twenty bytes that do not start with "BM". *)
Definition not_bmp_short : list byte :=
  bytes [88; 88; 1; 2; 3; 4; 5; 6; 7; 8; 9; 10; 11; 12; 13; 14; 15; 16; 17; 18].


Definition one_file (data : list byte) : filesystem := fun _ => Some data.

Definition fresh_editor : BMPImageEditor :=
  new_editor zero_file_header zero_info_block.

(** The editor after a successful [read] of the 2x2 image. *)
Definition loaded_2x2 : BMPImageEditor :=
  {| file_header := header_of image_2x2;
     info_block := info_of image_2x2;
     pixels := [[460809; 658188]; [66051; 263430]];
     fileWasRead := true |}.

(** A one-row image so wide that [width * 24] exceeds 32 bits:
    178956971 * 24 = 2^32 + 8. Its row takes 536870913 pixel bytes and 3
    padding bytes. *)
Definition wide_width : Z := 178956971.

Definition wide_row : disk_row :=
  {| row_cells := repeat (Byte.x00, Byte.x00, Byte.x00) (Z.to_nat wide_width);
     row_pad := [Byte.x00; Byte.x00; Byte.x00] |}.

Definition wide_headers : list byte :=
  bytes [ 66; 77;                 (* "BM" *)
          58; 0; 0; 32;           (* size_of_file = 536870970 *)
          0; 0;  0; 0;
          54; 0; 0; 0;            (* offset_to_pixel_data *)
          40; 0; 0; 0;
          171; 170; 170; 10;      (* width = 178956971 *)
          1; 0; 0; 0;             (* height *)
          1; 0;
          24; 0;                  (* color_depth_in_bits *)
          0; 0; 0; 0;             (* type_of_compression *)
          4; 0; 0; 32;            (* size_of_image = 536870916 *)
          19; 11; 0; 0;  19; 11; 0; 0;
          0; 0; 0; 0;  0; 0; 0; 0 ].

Definition wide_image : list byte := wide_headers ++ pixel_section [wide_row].

Definition wide_file_header : BMPFileHeader :=
  {| type_of_file := 19778; size_of_file := 536870970;
     reserved_1 := 0; reserved_2 := 0; offset_to_pixel_data := 54 |}.

Definition wide_info : BMPFileInfoBlock :=
  {| size_of_info_block := 40; width := wide_width; height := 1;
     count_of_planes := 1; color_depth_in_bits := 24;
     type_of_compression := 0; size_of_image := 536870916;
     horizontal_resolution := 2835; vertical_resolution := 2835;
     count_of_colors := 0; count_of_important_colors := 0 |}.

(** The editor holding that image: one row of black pixels. *)
Definition wide_loaded : BMPImageEditor :=
  {| file_header := wide_file_header;
     info_block := wide_info;
     pixels := [repeat 0 (Z.to_nat wide_width)];
     fileWasRead := true |}.

(** An info block of a 24-bit image of the given width and height. *)
Definition info_24bit (w h : Z) : BMPFileInfoBlock :=
  {| size_of_info_block := 40; width := w; height := h;
     count_of_planes := 1; color_depth_in_bits := 24;
     type_of_compression := 0; size_of_image := 0;
     horizontal_resolution := 0; vertical_resolution := 0;
     count_of_colors := 0; count_of_important_colors := 0 |}.

(** ** printImage *)

(** The three members used to draw a pixel on the console. *)
Definition white : string := "..".
Definition black : string := "$$".
Definition unknown_color : string := "??".

Definition newline : string := String (Ascii.ascii_of_nat 10) EmptyString.

(** What [printImage] sends to [std::cout] for one pixel. *)
Definition glyph (p : Z) : string :=
  if p =? 0 then black
  else if p =? 16777215 (* 0xFFFFFF *) then white
  else unknown_color.

(** The inner loop [for (int x = 0; x < info_block.width; ++x)], with [n]
    iterations left; [out] is what went to [std::cout] so far. *)
Fixpoint print_row (n : nat) (x y : Z) (px : grid) (out : string)
  : option string :=
  match n with
  | O => Some out
  | S n' =>
      match grid_get y x px with
      | None => None
      | Some p => print_row n' (x + 1) y px (String.append out (glyph p))
      end
  end.

(** The outer loop [for (int y = 0; y < info_block.height; ++y)]. *)
Fixpoint print_rows (ib : BMPFileInfoBlock) (n : nat) (y : Z) (px : grid)
    (out : string) : option string :=
  match n with
  | O => Some out
  | S n' =>
      if INT_MAX <? width ib then None
      else
        match print_row (Z.to_nat (width ib)) 0 y px out with
        | None => None
        | Some out1 => print_rows ib n' (y + 1) px (String.append out1 newline)
        end
  end.

(** [printImage] returns the text sent to [std::cout]; it is [const] and
    does not look at [fileWasRead]. *)
Definition printImage (st : BMPImageEditor) : outcome string :=
  let ib := info_block st in
  if INT_MAX <? height ib then Undefined
  else
    match print_rows ib (Z.to_nat (height ib)) 0 (pixels st) EmptyString with
    | None => Undefined
    | Some text => Returns text st
    end.

(** ** main *)

Definition double_quote : string := String (Ascii.ascii_of_nat 34) EmptyString.

(** [what()] of the exception thrown at each [throw]; only the first one
    mentions the path given to [read]. *)
Definition what (e : error) (file_path : string) : string :=
  match e with
  | CannotOpen =>
      String.append "Error! It's not possible to open the file on the path: "
        (String.append double_quote
           (String.append file_path (String.append double_quote ".")))
  | ReadError => "Oops! An error occurred while reading the file."
  | NotBmpType => "Error! The specified file is not of the BMP type."
  | BadColorDepth =>
      "Error! This class only works with images with a color depth of 24 bits."
  | NotReadYet => "Error! First you need to read the data from the file."
  end.

(** What one run of the program leaves behind. *)
Record run : Type := {
  stdout : string;
  stderr : string;
  disk : filesystem;
  exit_code : Z
}.

(** [std::ofstream out_file(path, out | trunc)] followed by the writes of
    [save]: the file gets the bytes when it can be created, and nothing
    happens otherwise (the source does not test the stream). *)
Definition write_file (creatable : string -> bool) (fs : filesystem)
    (path : string) (data : list byte) : filesystem :=
  if creatable path
  then fun p => if String.eqb p path then Some data else fs p
  else fs.

Definition prompt_input : string :=
  String.append newline "Enter input BMP file name: ".
Definition title_before : string :=
  String.append newline (String.append "Image before changes:" newline).
Definition title_after : string :=
  String.append newline (String.append "Image after changes: " newline).
Definition prompt_output : string :=
  String.append newline "Enter output BMP file name: ".

(** [main]. [input_file_path] and [output_file_path] are the two lines
    [std::getline] takes from [std::cin] (the second one only if it gets
    that far); [fh0] and [ib0] are what the storage of [object] held. [None]
    is undefined behaviour. *)
Definition main (fh0 : BMPFileHeader) (ib0 : BMPFileInfoBlock)
    (creatable : string -> bool) (fs : filesystem)
    (input_file_path output_file_path : string) : option run :=
  let object := new_editor fh0 ib0 in
  let caught (out : string) (e : error) :=
    Some {| stdout := out; stderr := what e input_file_path;
            disk := fs; exit_code := 0 |} in
  let out0 := prompt_input in
  match read fs input_file_path object with
  | Undefined => None
  | Throws e _ => caught out0 e
  | Returns _ object1 =>
      let out1 := String.append out0 title_before in
      match printImage object1 with
      | Undefined => None
      | Throws e _ => caught out1 e
      | Returns image1 _ =>
          let out2 := String.append out1 image1 in
          match drawCross Byte.x00 Byte.xa5 Byte.xff object1 with
          | Undefined => None
          | Throws e _ => caught out2 e
          | Returns _ object2 =>
              let out3 := String.append out2 title_after in
              match printImage object2 with
              | Undefined => None
              | Throws e _ => caught out3 e
              | Returns image2 _ =>
                  let out4 :=
                    String.append (String.append out3 image2) prompt_output in
                  match save object2 with
                  | Undefined => None
                  | Throws e _ => caught out4 e
                  | Returns data _ =>
                      Some {| stdout := out4; stderr := EmptyString;
                              disk := write_file creatable fs
                                        output_file_path data;
                              exit_code := 0 |}
                  end
              end
          end
      end
  end.

(** ** More vocabulary *)

(** The matrix has exactly [height] rows of exactly [width] cells, each a
    24-bit color. *)
Definition exact_grid (ib : BMPFileInfoBlock) (px : grid) : Prop :=
  Z.of_nat (length px) = height ib /\
  Forall (fun row => Z.of_nat (length row) = width ib /\
                     Forall (fun c => 0 <= c < 2 ^ 24) row) px.

(** The disk pixel of a color, as [save] writes it. *)
Definition color_triple (p : Z) : triple :=
  (byte.of_Z (Z.shiftr (Z.land p (Z.shiftl 255 16)) 16),
   byte.of_Z (Z.shiftr (Z.land p (Z.shiftl 255 8)) 8),
   byte.of_Z (Z.land p 255)).

(** The disk row of a matrix row of width [w]: its pixels, then zero
    padding up to the stride. *)
Definition disk_row_of (w : Z) (row : list Z) : disk_row :=
  {| row_cells := map color_triple row;
     row_pad := repeat Byte.x00 (Z.to_nat (disk_stride w - 3 * w)) |}.

(** A disk row with its padding bytes set to zero. *)
Definition clear_padding (r : disk_row) : disk_row :=
  {| row_cells := row_cells r;
     row_pad := repeat Byte.x00 (length (row_pad r)) |}.

(** Strings one after the other. *)
Definition join (l : list string) : string :=
  fold_right String.append EmptyString l.

(** One line of [printImage]: the glyphs of the first [w] cells of a row,
    then the line feed. *)
Definition row_text (w : Z) (row : list Z) : string :=
  String.append (join (map glyph (firstn (Z.to_nat w) row))) newline.

(** The exception [read] throws for a path, if it throws one: the checks
    of [read] in their order. *)
Definition rejection (fs : filesystem) (file_path : string) : option error :=
  match fs file_path with
  | None => Some CannotOpen
  | Some data =>
      if (length data <? 54)%nat then Some ReadError
      else if negb (type_of_file (header_of data) =? 19778)
      then Some NotBmpType
      else if negb (color_depth_in_bits (info_of data) =? 24)
      then Some BadColorDepth
      else None
  end.

(** The color of the cross [main] draws: [drawCross(0, 165, 255)]. *)
Definition orange : Z := 42495. (* 0x00A5FF *)

(** ** Machine integers: basic facts *)

Ltac pow_consts :=
  change (2 ^ 64) with 18446744073709551616 in *;
  change (2 ^ 32) with 4294967296 in *;
  change (2 ^ 31) with 2147483648 in *;
  change (2 ^ 8) with 256 in *.

Lemma wrap32_small z : 0 <= z < 2 ^ 32 -> wrap32 z = z.
Proof. intros H. unfold wrap32. apply Z.mod_small. exact H. Qed.

Lemma wrap32_range z : 0 <= wrap32 z < 2 ^ 32.
Proof. unfold wrap32. apply Z.mod_pos_bound. reflexivity. Qed.

Lemma to_int32_small z : 0 <= z < 2 ^ 31 -> to_int32 z = z.
Proof.
  intros H. unfold to_int32.
  rewrite wrap32_small by (pow_consts; lia).
  destruct (Z.ltb_spec z (2 ^ 31)); lia.
Qed.

Lemma to_int32_wrap z : wrap32 (to_int32 z) = wrap32 z.
Proof.
  unfold to_int32.
  destruct (Z.ltb_spec (wrap32 z) (2 ^ 31)).
  - unfold wrap32. apply Z.mod_mod. discriminate.
  - unfold wrap32.
    replace (z mod 2 ^ 32 - 2 ^ 32) with (z mod 2 ^ 32 + (-1) * 2 ^ 32) by ring.
    rewrite Z.mod_add by discriminate. apply Z.mod_mod. discriminate.
Qed.

Lemma le_combine_range32 bs : length bs = 4%nat -> 0 <= le_combine bs < 2 ^ 32.
Proof. intros H. pose proof (le_combine_bound bs) as B. rewrite H in B. exact B. Qed.

Lemma le_combine_nonneg bs : 0 <= le_combine bs.
Proof. apply le_combine_bound. Qed.

Lemma le_split_to_int32 bs :
  length bs = 4%nat -> le_split 4 (to_int32 (le_combine bs)) = bs.
Proof.
  intros H. rewrite le_split_mod.
  change (2 ^ (Z.of_nat 4 * 8)) with (2 ^ 32).
  fold (wrap32 (to_int32 (le_combine bs))).
  rewrite to_int32_wrap, wrap32_small by (apply le_combine_range32; exact H).
  apply split_le_combine'. exact H.
Qed.

(** ** The structs and their bytes *)

Lemma file_header_bytes_length h :
  length (file_header_bytes h) = sizeof_BMPFileHeader.
Proof. unfold file_header_bytes. rewrite !length_app, !length_le_split. reflexivity. Qed.

Lemma info_block_bytes_length b :
  length (info_block_bytes b) = sizeof_BMPFileInfoBlock.
Proof. unfold info_block_bytes. rewrite !length_app, !length_le_split. reflexivity. Qed.

Ltac explode_list l H :=
  repeat (destruct l as [|? l]; [discriminate H|simpl in H]);
  destruct l; [clear H|discriminate H].

(** Writing a struct that was read whole gives back the bytes read. *)
Lemma file_header_bytes_parse m :
  length m = sizeof_BMPFileHeader ->
  file_header_bytes (parse_file_header m) = m.
Proof.
  intros H. unfold sizeof_BMPFileHeader in H. explode_list m H.
  unfold file_header_bytes, parse_file_header, field; cbn [firstn skipn
    type_of_file size_of_file reserved_1 reserved_2 offset_to_pixel_data].
  rewrite !split_le_combine' by reflexivity. reflexivity.
Qed.

Lemma info_block_bytes_parse m :
  length m = sizeof_BMPFileInfoBlock ->
  info_block_bytes (parse_info_block m) = m.
Proof.
  intros H. unfold sizeof_BMPFileInfoBlock in H. explode_list m H.
  unfold info_block_bytes, parse_info_block, field; cbn [firstn skipn
    size_of_info_block width height count_of_planes color_depth_in_bits
    type_of_compression size_of_image horizontal_resolution
    vertical_resolution count_of_colors count_of_important_colors].
  rewrite !le_split_to_int32 by reflexivity.
  rewrite !split_le_combine' by reflexivity. reflexivity.
Qed.

(** ** Lists and the matrix *)

Lemma update_length {A} n (v : A) l : length (update n v l) = length l.
Proof.
  revert n; induction l as [|h t IH]; intros [|n]; simpl; auto.
Qed.

Lemma update_app_length {A} (pre : list A) v o post :
  update (length pre) v (pre ++ o :: post) = pre ++ v :: post.
Proof. induction pre as [|h t IH]; simpl; [reflexivity|now rewrite IH]. Qed.

Lemma nth_error_app_length {A} (pre : list A) o post :
  nth_error (pre ++ o :: post) (length pre) = Some o.
Proof. induction pre as [|h t IH]; simpl; auto. Qed.

Lemma Forall_firstn {A} (P : A -> Prop) n : forall l,
  Forall P l -> Forall P (firstn n l).
Proof.
  induction n as [|n IH]; intros l Hl; [constructor|].
  destruct Hl as [|a l Ha Hl]; [constructor|].
  cbn [firstn]. constructor; [exact Ha|apply IH; exact Hl].
Qed.

Lemma overwrite_length_ge {A} (new old : list A) :
  (length old <= length new)%nat -> overwrite new old = new.
Proof.
  intros H. unfold overwrite. rewrite skipn_all2 by exact H. apply app_nil_r.
Qed.

Lemma overwrite_length {A} (new old : list A) :
  (length new <= length old)%nat -> length (overwrite new old) = length old.
Proof.
  intros H. unfold overwrite. rewrite length_app, length_skipn. lia.
Qed.

Lemma firstn_overwrite {A} (new old : list A) :
  firstn (length new) (overwrite new old) = new.
Proof.
  unfold overwrite. rewrite firstn_app, Nat.sub_diag, firstn_all. simpl.
  apply app_nil_r.
Qed.

Lemma grid_set_at (pre : grid) rpre o rpost post c :
  grid_set (Z.of_nat (length pre)) (Z.of_nat (length rpre)) c
           (pre ++ (rpre ++ o :: rpost) :: post)
  = Some (pre ++ (rpre ++ c :: rpost) :: post).
Proof.
  unfold grid_set.
  destruct (Z.ltb_spec (Z.of_nat (length pre)) 0); [lia|].
  destruct (Z.ltb_spec (Z.of_nat (length rpre)) 0); [lia|]. simpl.
  rewrite !Nat2Z.id, nth_error_app_length.
  destruct (Nat.ltb_spec (length rpre) (length (rpre ++ o :: rpost))) as [_|Hlen].
  - now rewrite !update_app_length.
  - rewrite length_app in Hlen. simpl in Hlen. lia.
Qed.

Lemma grid_get_at (pre : grid) rpre o rpost post :
  grid_get (Z.of_nat (length pre)) (Z.of_nat (length rpre))
           (pre ++ (rpre ++ o :: rpost) :: post) = Some o.
Proof.
  unfold grid_get.
  destruct (Z.ltb_spec (Z.of_nat (length pre)) 0); [lia|].
  destruct (Z.ltb_spec (Z.of_nat (length rpre)) 0); [lia|]. simpl.
  now rewrite !Nat2Z.id, !nth_error_app_length.
Qed.

(** ** The stream *)

Lemma remaining_advance s k :
  remaining {| contents := contents s; gpos := (gpos s + k)%nat;
               failbit := false |} = skipn k (remaining s).
Proof. unfold remaining. simpl. rewrite skipn_skipn. f_equal. lia. Qed.

Lemma stream_read_enough s bs rest :
  failbit s = false -> remaining s = bs ++ rest ->
  stream_read (length bs) s =
    (bs, {| contents := contents s; gpos := (gpos s + length bs)%nat;
            failbit := false |}).
Proof.
  intros Hf Hr. unfold stream_read. rewrite Hf, Hr.
  rewrite firstn_app, Nat.sub_diag, firstn_all. simpl. rewrite app_nil_r.
  now rewrite Nat.ltb_irrefl.
Qed.

Lemma read_u8_next s b rest :
  failbit s = false -> remaining s = b :: rest ->
  exists s', read_u8 s = (byte.unsigned b, s') /\
             failbit s' = false /\ remaining s' = rest.
Proof.
  intros Hf Hr. unfold read_u8.
  change 1%nat with (length [b]).
  rewrite (stream_read_enough s [b] rest Hf Hr).
  eexists; split; [reflexivity|]. split; [reflexivity|].
  rewrite remaining_advance, Hr. reflexivity.
Qed.

Lemma seekg_cur_skip s pad rest :
  failbit s = false -> remaining s = pad ++ rest ->
  failbit (seekg_cur (Z.of_nat (length pad)) s) = false /\
  remaining (seekg_cur (Z.of_nat (length pad)) s) = rest.
Proof.
  intros Hf Hr. unfold seekg_cur. rewrite Hf.
  destruct (Z.ltb_spec (Z.of_nat (gpos s) + Z.of_nat (length pad)) 0); [lia|].
  split; [reflexivity|].
  rewrite <- Nat2Z.inj_add, Nat2Z.id, remaining_advance, Hr.
  rewrite skipn_app, Nat.sub_diag, skipn_all. reflexivity.
Qed.

Lemma scan_pixel_next s t rest :
  failbit s = false -> remaining s = triple_bytes t ++ rest ->
  exists s', scan_pixel s = (triple_color t, s') /\
             failbit s' = false /\ remaining s' = rest.
Proof.
  destruct t as [[b g] r]. simpl. intros Hf Hr. unfold scan_pixel.
  destruct (read_u8_next _ _ _ Hf Hr) as (s1 & -> & Hf1 & Hr1).
  destruct (read_u8_next _ _ _ Hf1 Hr1) as (s2 & -> & Hf2 & Hr2).
  destruct (read_u8_next _ _ _ Hf2 Hr2) as (s3 & -> & Hf3 & Hr3).
  exists s3. auto.
Qed.

Lemma scan_row_length n s : length (fst (scan_row n s)) = n.
Proof.
  revert s; induction n as [|n IH]; intros s; simpl; [reflexivity|].
  destruct (scan_pixel s) as [c s1].
  specialize (IH s1). destruct (scan_row n s1) as [cs s2]. simpl in *. lia.
Qed.

Lemma scan_row_cells cells : forall s rest,
  failbit s = false -> remaining s = flat_map triple_bytes cells ++ rest ->
  exists s', scan_row (length cells) s = (map triple_color cells, s') /\
             failbit s' = false /\ remaining s' = rest.
Proof.
  induction cells as [|t cells IH]; intros s rest Hf Hr; simpl.
  - exists s. auto.
  - simpl in Hr. rewrite <- app_assoc in Hr.
    destruct (scan_pixel_next _ _ _ Hf Hr) as (s1 & -> & Hf1 & Hr1).
    destruct (IH _ _ Hf1 Hr1) as (s2 & -> & Hf2 & Hr2).
    exists s2. auto.
Qed.

(** ** The pixel loops of [read] *)

(** The inner loop writes the scanned pixels over the cells of the row,
    from column [length rpre] on, and touches nothing else. *)
Lemma read_row_scan n : forall s (pre : grid) rpre old rpost post,
  length old = n ->
  read_row n (Z.of_nat (length rpre)) (Z.of_nat (length pre)) s
           (pre ++ (rpre ++ old ++ rpost) :: post)
  = Some (snd (scan_row n s),
          pre ++ (rpre ++ fst (scan_row n s) ++ rpost) :: post).
Proof.
  induction n as [|n IH]; intros s pre rpre old rpost post Hlen.
  - destruct old; [reflexivity|discriminate].
  - destruct old as [|o old]; [discriminate|]. injection Hlen as Hlen.
    cbn [read_row scan_row]. unfold scan_pixel.
    destruct (read_u8 s) as [blue s1].
    destruct (read_u8 s1) as [green s2].
    destruct (read_u8 s2) as [red s3].
    cbn [app]. rewrite grid_set_at.
    replace (Z.of_nat (length rpre) + 1)
      with (Z.of_nat (length (rpre ++ [pack_color blue green red])))
      by (rewrite length_app; simpl; lia).
    replace (rpre ++ pack_color blue green red :: old ++ rpost)
      with ((rpre ++ [pack_color blue green red]) ++ old ++ rpost)
      by (now rewrite <- app_assoc).
    rewrite (IH s3 pre _ old rpost post Hlen).
    destruct (scan_row n s3) as [cs s4]. cbn [fst snd].
    now rewrite <- app_assoc.
Qed.

Lemma read_row_whole w s (pre : grid) row post :
  (w <= length row)%nat ->
  read_row w 0 (Z.of_nat (length pre)) s (pre ++ row :: post)
  = Some (snd (scan_row w s),
          pre ++ overwrite (fst (scan_row w s)) row :: post).
Proof.
  intros Hw.
  pose proof (read_row_scan w s pre [] (firstn w row) (skipn w row) post) as E.
  cbn [app length] in E. change (Z.of_nat 0) with 0 in E.
  rewrite firstn_skipn in E.
  rewrite E by (rewrite length_firstn; lia).
  unfold overwrite. now rewrite scan_row_length.
Qed.

Lemma scan_rows_length ib n s : length (fst (scan_rows ib n s)) = n.
Proof.
  revert s; induction n as [|n IH]; intros s; simpl; [reflexivity|].
  destruct (scan_row (Z.to_nat (width ib)) s) as [row s1].
  match goal with |- context [scan_rows ib n ?s2] =>
    specialize (IH s2); destruct (scan_rows ib n s2) as [rows s3] end.
  simpl in *. lia.
Qed.

Lemma scan_rows_widths ib n s :
  Forall (fun row => length row = Z.to_nat (width ib)) (fst (scan_rows ib n s)).
Proof.
  revert s; induction n as [|n IH]; intros s; simpl; [constructor|].
  pose proof (scan_row_length (Z.to_nat (width ib)) s) as Hl.
  destruct (scan_row (Z.to_nat (width ib)) s) as [row s1].
  match goal with |- context [scan_rows ib n ?s2] =>
    specialize (IH s2); destruct (scan_rows ib n s2) as [rows s3] end.
  simpl in *. constructor; assumption.
Qed.

Section ReadRows.
Variable ib : BMPFileInfoBlock.
Variables W H : nat.
Hypothesis Hwidth : width ib = Z.of_nat W.
Hypothesis Hheight : height ib = Z.of_nat H.
Hypothesis Hh : Z.of_nat H <= INT_MAX.

(** The outer loop, seen from the end: with [length L] rows left to read,
    the rows still to be written are [rev L], the lowest-numbered rows of
    the matrix; the first row scanned lands in the last of them. *)
Lemma read_rows_scan : forall L s upper,
  (length L <= H)%nat ->
  (L = [] \/ Z.of_nat W <= INT_MAX) ->
  Forall (fun row => (W <= length row)%nat) L ->
  read_rows ib (length L) (Z.of_nat (H - length L)) s (rev L ++ upper)
  = Some (snd (scan_rows ib (length L) s),
          rev (overlay (fst (scan_rows ib (length L) s)) L) ++ upper).
Proof.
  induction L as [|row L IH]; intros s upper Hlen Hw Hfit; [reflexivity|].
  destruct Hw as [Hw|Hw]; [discriminate|].
  inversion Hfit as [|? ? Hrow HfitL]; subst.
  cbn [length read_rows scan_rows]. cbn [length] in Hlen.
  rewrite Hwidth, Hheight, Nat2Z.id.
  destruct (Z.ltb_spec INT_MAX (Z.of_nat W)); [lia|].
  replace (to_int32 (wrap32 (wrap32
             (Z.of_nat H - Z.of_nat (H - S (length L))) - 1)))
    with (Z.of_nat (length (rev L))).
  2:{ rewrite length_rev.
      replace (Z.of_nat H - Z.of_nat (H - S (length L)))
        with (Z.of_nat (length L) + 1) by lia.
      unfold INT_MAX in Hh.
      rewrite (wrap32_small (Z.of_nat (length L) + 1)) by (pow_consts; lia).
      replace (Z.of_nat (length L) + 1 - 1) with (Z.of_nat (length L)) by lia.
      rewrite wrap32_small by (pow_consts; lia).
      rewrite to_int32_small by (pow_consts; lia). reflexivity. }
  cbn [rev]. rewrite <- app_assoc. cbn [app].
  rewrite read_row_whole by exact Hrow.
  destruct (scan_row W s) as [cs s1]. cbn [fst snd].
  replace (Z.of_nat (H - S (length L)) + 1)
    with (Z.of_nat (H - length L)) by lia.
  rewrite IH; [|lia|right; exact Hw|exact HfitL].
  destruct (scan_rows ib (length L) _) as [rows s3]. cbn [fst snd].
  unfold overlay. cbn [combine map rev fst snd].
  now rewrite <- app_assoc.
Qed.

(** The whole loop on a matrix of [H] rows of at least [W] cells. *)
Lemma read_rows_all px s :
  length px = H ->
  (H = 0%nat \/ Z.of_nat W <= INT_MAX) ->
  Forall (fun row => (W <= length row)%nat) px ->
  read_rows ib H 0 s px
  = Some (snd (scan_rows ib H s),
          rev (overlay (fst (scan_rows ib H s)) (rev px))).
Proof.
  intros Hlen Hw Hfit.
  pose proof (read_rows_scan (rev px) s []) as E.
  rewrite length_rev, Hlen, Nat.sub_diag, rev_involutive, !app_nil_r in E.
  apply E; [lia| |].
  - destruct Hw as [->|Hw]; [left|right; exact Hw].
    destruct px; [reflexivity|discriminate].
  - apply Forall_rev. exact Hfit.
Qed.
End ReadRows.

(** ** [read] up to the pixel loops *)

Lemma stream_read_exact n s bs rest :
  length bs = n -> failbit s = false -> remaining s = bs ++ rest ->
  stream_read n s =
    (bs, {| contents := contents s; gpos := (gpos s + n)%nat;
            failbit := false |}).
Proof. intros <-. apply stream_read_enough. Qed.

Lemma stream_read_short n s :
  failbit s = false -> (length (remaining s) < n)%nat ->
  stream_read n s =
    (remaining s, {| contents := contents s;
                     gpos := (gpos s + length (remaining s))%nat;
                     failbit := true |}).
Proof.
  intros Hf Hlen. unfold stream_read. rewrite Hf.
  rewrite firstn_all2 by lia.
  destruct (Nat.ltb_spec (length (remaining s)) n); [reflexivity|lia].
Qed.

Lemma header_of_offset_nonneg data : 0 <= offset_to_pixel_data (header_of data).
Proof. apply le_combine_nonneg. Qed.

(** With both structs read whole, [read] is the two checks followed by the
    pixel loops. *)
Lemma read_past_headers fs file_path st data :
  fs file_path = Some data ->
  (54 <= length data)%nat ->
  read fs file_path st =
    let fh := header_of data in
    let ib := info_of data in
    let st2 := {| file_header := fh; info_block := ib;
                  pixels := pixels st; fileWasRead := fileWasRead st |} in
    if negb (type_of_file fh =? 19778) then Throws NotBmpType st2
    else if negb (color_depth_in_bits ib =? 24) then Throws BadColorDepth st2
    else if INT_MAX <? height ib then Undefined
    else
      match read_rows ib (Z.to_nat (height ib)) 0 (pixel_stream data)
              (resize (height ib) (repeat 0 (Z.to_nat (width ib))) (pixels st))
      with
      | None => Undefined
      | Some (_, px') =>
          Returns tt {| file_header := fh; info_block := ib;
                        pixels := px'; fileWasRead := true |}
      end.
Proof.
  intros Hfs Hlen. unfold read. rewrite Hfs.
  assert (H1 : length (firstn 14 data) = 14%nat)
    by (rewrite length_firstn; lia).
  assert (H2 : length (firstn 40 (skipn 14 data)) = 40%nat)
    by (rewrite length_firstn, length_skipn; lia).
  rewrite (stream_read_exact sizeof_BMPFileHeader (open data)
             (firstn 14 data) (skipn 14 data) H1 eq_refl)
    by (symmetry; apply firstn_skipn).
  cbn [failbit]. unfold open. cbn [contents gpos].
  change (0 + sizeof_BMPFileHeader)%nat with 14%nat.
  rewrite (stream_read_exact sizeof_BMPFileInfoBlock
             {| contents := data; gpos := 14; failbit := false |}
             (firstn 40 (skipn 14 data)) (skipn 40 (skipn 14 data)) H2 eq_refl)
    by (symmetry; apply firstn_skipn).
  cbn [failbit].
  rewrite !overwrite_length_ge
    by (rewrite ?file_header_bytes_length, ?info_block_bytes_length, ?H1, ?H2;
        apply Nat.le_refl).
  change (parse_file_header (firstn 14 data)) with (header_of data).
  change (parse_info_block (firstn 40 (skipn 14 data))) with (info_of data).
  cbv zeta.
  destruct (negb (type_of_file (header_of data) =? 19778)); [reflexivity|].
  destruct (negb (color_depth_in_bits (info_of data) =? 24)); [reflexivity|].
  unfold seekg_beg. cbn [failbit contents].
  destruct (Z.ltb_spec (offset_to_pixel_data (header_of data)) 0) as [Hneg|_].
  - pose proof (header_of_offset_nonneg data). lia.
  - reflexivity.
Qed.

(** A file shorter than the two structs: [check_error] throws, after the
    bytes that did arrive were stored. *)
Lemma read_short_file fs file_path st data :
  fs file_path = Some data ->
  (length data < 54)%nat ->
  exists st', read fs file_path st = Throws ReadError st' /\
              pixels st' = pixels st /\ fileWasRead st' = fileWasRead st.
Proof.
  intros Hfs Hlen. unfold read. rewrite Hfs.
  destruct (Nat.lt_ge_cases (length data) 14) as [Hs|Hl].
  - rewrite stream_read_short by (try reflexivity; exact Hs).
    cbn [failbit]. eexists. split; [reflexivity|]. split; reflexivity.
  - assert (H1 : length (firstn 14 data) = 14%nat)
      by (rewrite length_firstn; lia).
    rewrite (stream_read_exact sizeof_BMPFileHeader (open data)
               (firstn 14 data) (skipn 14 data) H1 eq_refl)
      by (symmetry; apply firstn_skipn).
    cbn [failbit]. unfold open. cbn [contents gpos].
    change (0 + sizeof_BMPFileHeader)%nat with 14%nat.
    rewrite stream_read_short;
      [|reflexivity
       |unfold remaining; cbn [gpos contents];
        rewrite length_skipn; unfold sizeof_BMPFileInfoBlock; lia].
    cbn [failbit]. eexists. split; [reflexivity|]. split; reflexivity.
Qed.

(** ** The matrix after [resize] and after the loops *)

Lemma resize_length n fill px : 0 <= n -> length (resize n fill px) = Z.to_nat n.
Proof.
  intros _. unfold resize.
  rewrite length_app, length_firstn, repeat_length. lia.
Qed.

Lemma resize_fits n w px :
  Forall (fun row => (w <= length row)%nat) (firstn (Z.to_nat n) px) ->
  Forall (fun row => (w <= length row)%nat) (resize n (repeat 0 w) px).
Proof.
  intros Hf. unfold resize. apply Forall_app. split; [exact Hf|].
  apply Forall_forall. intros row Hin. apply repeat_spec in Hin. subst.
  rewrite repeat_length. apply Nat.le_refl.
Qed.

Lemma overlay_length scanned old :
  length scanned = length old -> length (overlay scanned old) = length old.
Proof.
  intros Hl. unfold overlay. rewrite length_map, length_combine. lia.
Qed.

Lemma overlay_fits w : forall scanned old,
  Forall (fun row => length row = w) scanned ->
  Forall (fun row => (w <= length row)%nat) old ->
  Forall (fun row => (w <= length row)%nat) (overlay scanned old).
Proof.
  induction scanned as [|cs scanned IH]; intros old Hs Ho; [constructor|].
  destruct old as [|o old]; [constructor|].
  inversion Hs; inversion Ho; subst.
  unfold overlay. cbn [combine map fst snd]. constructor.
  - rewrite overwrite_length; assumption.
  - apply IH; assumption.
Qed.

(** ** Bits: colors and alignment *)

Lemma testbit_above v k n :
  0 <= v < 2 ^ k -> 0 <= k <= n -> Z.testbit v n = false.
Proof.
  intros Hv Hk. apply Z.testbit_false; [lia|].
  rewrite Z.div_small; [reflexivity|].
  split; [lia|]. apply Z.lt_le_trans with (2 ^ k); [lia|].
  apply Z.pow_le_mono_r; lia.
Qed.

Lemma testbit_byte b n : 8 <= n -> Z.testbit (byte.unsigned b) n = false.
Proof.
  intros Hn. apply (testbit_above _ 8); [apply byte.unsigned_range|lia].
Qed.

Lemma of_Z_eq z b : z = byte.unsigned b -> byte.of_Z z = b.
Proof. intros ->. apply byte.of_Z_unsigned. Qed.

Ltac clear_byte_bits :=
  repeat match goal with
  | |- context [Z.testbit (byte.unsigned ?b) ?n] =>
      first [ rewrite (testbit_byte b n) by lia
            | rewrite (Z.testbit_neg_r (byte.unsigned b) n) by lia ]
  end.

(** The bytes [save] pushes for a color that [read] packed are the bytes
    that were read. *)
Lemma unpack_pack_color t : unpack_color (triple_color t) = triple_bytes t.
Proof.
  destruct t as [[b g] r].
  unfold unpack_color, triple_color, triple_bytes, pack_color.
  change 255 with (Z.ones 8).
  repeat f_equal; apply of_Z_eq; Z.bitblast; clear_byte_bits; try btauto.
Qed.

Lemma flat_map_unpack_pack cells :
  flat_map unpack_color (map triple_color cells) = flat_map triple_bytes cells.
Proof.
  induction cells as [|t cells IH]; [reflexivity|].
  cbn [map flat_map]. now rewrite unpack_pack_color, IH.
Qed.

(** [v & ~3] rounds down to a multiple of 4. *)
Lemma land_align4 v :
  0 <= v < 2 ^ 32 -> Z.land v (wrap32 (Z.lnot 3)) = v / 4 * 4.
Proof.
  intros Hv.
  change (wrap32 (Z.lnot 3)) with (Z.shiftl (Z.ones 30) 2).
  change 4 with (2 ^ 2).
  rewrite <- Z.shiftr_div_pow2, <- Z.shiftl_mul_pow2 by lia.
  Z.bitblast.
  rewrite (testbit_above v 32) by lia. reflexivity.
Qed.

Ltac split_ltb :=
  repeat match goal with
         | |- context [?a <? ?b] => destruct (Z.ltb_spec a b)
         end.

(** The padding [read] skips after a row is the distance to the stride,
    for every 32-bit width: the wrap-arounds of [row_size] cancel. *)
Lemma row_padding_eq ib :
  color_depth_in_bits ib = 24 -> 0 <= width ib < 2 ^ 32 ->
  row_padding ib = disk_stride (width ib) - 3 * width ib.
Proof.
  intros Hd Hw. unfold row_padding, row_size, disk_stride. rewrite Hd.
  change (24 / 8) with 3.
  rewrite land_align4 by apply wrap32_range.
  set (w := width ib) in *.
  unfold to_int32, wrap32. pow_consts.
  split_ltb; Z.div_mod_to_equations; lia.
Qed.

Lemma row_size_eq ib :
  color_depth_in_bits ib = 24 -> 0 <= width ib -> 3 * width ib + 3 < 2 ^ 31 ->
  row_size ib = disk_stride (width ib).
Proof.
  intros Hd Hw Hb. unfold row_size, disk_stride. rewrite Hd.
  change (24 / 8) with 3.
  rewrite land_align4 by apply wrap32_range.
  set (w := width ib) in *.
  unfold to_int32, wrap32. pow_consts.
  split_ltb; Z.div_mod_to_equations; lia.
Qed.

Lemma row_stride_eq ib :
  color_depth_in_bits ib = 24 -> 0 <= width ib ->
  24 * width ib + 31 < 2 ^ 32 ->
  row_stride ib = disk_stride (width ib).
Proof.
  intros Hd Hw Hb. unfold row_stride, disk_stride. rewrite Hd.
  set (w := width ib) in *.
  unfold to_int32, wrap32. pow_consts.
  split_ltb; Z.div_mod_to_equations; lia.
Qed.

Lemma disk_stride_bounds w : 0 <= disk_stride w - 3 * w <= 3.
Proof. unfold disk_stride. Z.div_mod_to_equations. lia. Qed.

(** ** [read] returns *)

Lemma le_combine_field32 off m : 0 <= le_combine (field off 4 m) < 2 ^ 32.
Proof.
  pose proof (le_combine_bound (field off 4 m)) as B.
  assert (Hl : (length (field off 4 m) <= 4)%nat)
    by (unfold field; rewrite length_firstn; lia).
  split; [apply B|].
  apply Z.lt_le_trans with (1 := proj2 B).
  apply Z.pow_le_mono_r; lia.
Qed.

Lemma info_of_width_range data : 0 <= width (info_of data) < 2 ^ 32.
Proof. apply le_combine_field32. Qed.

Lemma info_of_height_range data : 0 <= height (info_of data) < 2 ^ 32.
Proof. apply le_combine_field32. Qed.

Lemma reusable_nil ib : reusable ib [].
Proof. unfold reusable. rewrite firstn_nil. constructor. Qed.

Lemma Forall_width_nat (w : Z) (px : grid) :
  Forall (fun row => w <= Z.of_nat (length row)) px ->
  Forall (fun row => (Z.to_nat w <= length row)%nat) px.
Proof. apply Forall_impl. intros row Hr. lia. Qed.

Lemma Forall_width_Z (w : Z) (px : grid) :
  0 <= w ->
  Forall (fun row => (Z.to_nat w <= length row)%nat) px ->
  Forall (fun row => w <= Z.of_nat (length row)) px.
Proof. intros Hw. apply Forall_impl. intros row Hr. lia. Qed.

(** On a readable file [read] returns, whatever follows the two structs:
    it stores both structs as read, the decoded matrix, and sets the flag. *)
Lemma read_returns fs file_path st data :
  fs file_path = Some data ->
  readable data ->
  reusable (info_of data) (pixels st) ->
  read fs file_path st =
    Returns tt {| file_header := header_of data;
                  info_block := info_of data;
                  pixels := decoded_grid data (pixels st);
                  fileWasRead := true |}.
Proof.
  intros Hfs (Hlen & Hmagic & Hdepth & _ & Hh & Hw) Hre.
  rewrite (read_past_headers fs file_path st data Hfs Hlen). cbv zeta.
  rewrite Hmagic, Hdepth. cbn [Z.eqb Pos.eqb negb].
  destruct (Z.ltb_spec INT_MAX (height (info_of data))); [lia|].
  pose proof (info_of_width_range data) as Wr.
  pose proof (info_of_height_range data) as Hr.
  rewrite (read_rows_all (info_of data) (Z.to_nat (width (info_of data)))
             (Z.to_nat (height (info_of data)))).
  - reflexivity.
  - lia.
  - lia.
  - lia.
  - apply resize_length. lia.
  - destruct Hw as [Hw|Hw]; [left|right]; lia.
  - apply resize_fits. apply Forall_width_nat. exact Hre.
Qed.

Lemma decoded_grid_fits data old :
  reusable (info_of data) old ->
  grid_fits (info_of data) (decoded_grid data old).
Proof.
  intros Hre. unfold grid_fits, decoded_grid. cbv zeta.
  pose proof (info_of_width_range data) as Wr.
  pose proof (info_of_height_range data) as Hr.
  split.
  - rewrite length_rev, overlay_length;
      rewrite length_rev, resize_length by lia;
      [lia|apply scan_rows_length].
  - apply Forall_rev. apply Forall_width_Z; [lia|].
    apply overlay_fits.
    + apply scan_rows_widths.
    + apply Forall_rev. apply resize_fits. apply Forall_width_nat. exact Hre.
Qed.

(** ** Scanning a well-laid-out pixel section *)

Lemma scan_rows_layout ib :
  color_depth_in_bits ib = 24 -> 0 <= width ib < 2 ^ 32 ->
  forall rows s rest,
    Forall (row_fits (width ib)) rows ->
    failbit s = false ->
    remaining s = pixel_section rows ++ rest ->
    exists s',
      scan_rows ib (length rows) s
        = (map (fun r => map triple_color (row_cells r)) rows, s') /\
      failbit s' = false /\ remaining s' = rest.
Proof.
  intros Hd Hw. induction rows as [|row rows IH]; intros s rest Hfit Hf Hr.
  - exists s. auto.
  - inversion Hfit as [|? ? [Hcells Hpad] Hfit']; subst.
    cbn [length scan_rows map].
    unfold pixel_section in Hr. cbn [flat_map] in Hr.
    unfold disk_row_bytes in Hr at 1. rewrite <- !app_assoc in Hr.
    replace (Z.to_nat (width ib)) with (length (row_cells row)) by lia.
    destruct (scan_row_cells _ _ _ Hf Hr) as (s1 & -> & Hf1 & Hr1).
    rewrite row_padding_eq by assumption. rewrite <- Hpad.
    destruct (seekg_cur_skip _ _ _ Hf1 Hr1) as [Hf2 Hr2].
    destruct (Z.ltb_spec 0 (Z.of_nat (length (row_pad row)))) as [Hpos|Hzero].
    + destruct (IH _ _ Hfit' Hf2 Hr2) as (s3 & -> & Hf3 & Hr3).
      exists s3. auto.
    + assert (Hnil : row_pad row = [])
        by (destruct (row_pad row); [reflexivity|simpl in Hzero; lia]).
      rewrite Hnil in Hr1. cbn [app] in Hr1.
      destruct (IH _ _ Hfit' Hf1 Hr1) as (s3 & -> & Hf3 & Hr3).
      exists s3. auto.
Qed.

(** ** Cells of the decoded matrix *)

Lemma grid_get_nat r x (px : grid) :
  grid_get (Z.of_nat r) (Z.of_nat x) px =
    match nth_error px r with
    | None => None
    | Some row => nth_error row x
    end.
Proof.
  unfold grid_get.
  destruct (Z.ltb_spec (Z.of_nat r) 0); [lia|].
  destruct (Z.ltb_spec (Z.of_nat x) 0); [lia|]. simpl.
  now rewrite !Nat2Z.id.
Qed.

Lemma nth_error_overlay scanned old d cs o :
  nth_error scanned d = Some cs -> nth_error old d = Some o ->
  nth_error (overlay scanned old) d = Some (overwrite cs o).
Proof.
  revert old d; induction scanned as [|c scanned IH];
    intros [|o' old] [|d] Hs Ho; simpl in *; try discriminate.
  - now injection Hs as ->; injection Ho as ->.
  - apply IH; assumption.
Qed.

Lemma nth_error_overwrite {A} (new old : list A) x v :
  nth_error new x = Some v -> nth_error (overwrite new old) x = Some v.
Proof.
  intros Hx. unfold overwrite. rewrite nth_error_app1; [exact Hx|].
  apply nth_error_Some. congruence.
Qed.

(** Row [d] of the scan is row [H - 1 - d] of the matrix. *)
Lemma nth_error_rev_overlay scanned old d cs :
  length scanned = length old ->
  nth_error scanned d = Some cs ->
  exists o, nth_error (rev (overlay scanned old)) (length old - 1 - d)
            = Some (overwrite cs o).
Proof.
  intros Hlen Hs.
  assert (Hd : (d < length old)%nat)
    by (rewrite <- Hlen; apply nth_error_Some; congruence).
  destruct (nth_error old d) as [o|] eqn:Ho;
    [|apply nth_error_None in Ho; lia].
  exists o. rewrite nth_error_rev, overlay_length by exact Hlen.
  destruct (Nat.ltb_spec (length old - 1 - d) (length old)); [|lia].
  replace (length old - S (length old - 1 - d))%nat with d by lia.
  apply nth_error_overlay; assumption.
Qed.

(** ** The loops of [save] *)

Lemma save_row_cells cells : forall (pre : grid) rpre rpost post acc,
  save_row (length cells) (Z.of_nat (length rpre)) (Z.of_nat (length pre))
           (pre ++ (rpre ++ cells ++ rpost) :: post) acc
  = Some (acc ++ flat_map unpack_color cells).
Proof.
  induction cells as [|c cells IH]; intros pre rpre rpost post acc.
  - cbn. now rewrite app_nil_r.
  - cbn [length save_row app flat_map]. rewrite grid_get_at.
    replace (Z.of_nat (length rpre) + 1)
      with (Z.of_nat (length (rpre ++ [c])))
      by (rewrite length_app; simpl; lia).
    replace (rpre ++ c :: cells ++ rpost)
      with ((rpre ++ [c]) ++ cells ++ rpost) by (now rewrite <- app_assoc).
    rewrite IH. now rewrite <- app_assoc.
Qed.

Lemma save_row_whole w (pre : grid) row post :
  (w <= length row)%nat ->
  save_row w 0 (Z.of_nat (length pre)) (pre ++ row :: post) []
  = Some (flat_map unpack_color (firstn w row)).
Proof.
  intros Hw.
  pose proof (save_row_cells (firstn w row) pre [] (skipn w row) post []) as E.
  cbn [app length] in E. change (Z.of_nat 0) with 0 in E.
  rewrite firstn_skipn, length_firstn in E.
  replace (Nat.min w (length row)) with w in E by lia. exact E.
Qed.

Section SaveRows.
Variable ib : BMPFileInfoBlock.
Variable W : nat.
Hypothesis Hwidth : width ib = Z.of_nat W.

(** With [length L] rows left to write, [save] writes the rows [L] in
    this order; they are the rows of the matrix from [length L - 1] down. *)
Lemma save_rows_scan : forall L upper out,
  (L = [] \/ Z.of_nat W <= INT_MAX) ->
  Forall (fun row => (W <= length row)%nat) L ->
  save_rows ib (length L) (Z.of_nat (length L) - 1) (rev L ++ upper) out
  = Some (out ++ flat_map (encode_row ib) L).
Proof.
  induction L as [|row L IH]; intros upper out Hw Hfit.
  - cbn. now rewrite app_nil_r.
  - destruct Hw as [Hw|Hw]; [discriminate|].
    inversion Hfit as [|? ? Hrow HfitL]; subst.
    cbn [length save_rows rev flat_map].
    rewrite Hwidth, Nat2Z.id.
    destruct (Z.ltb_spec INT_MAX (Z.of_nat W)); [lia|].
    replace (Z.of_nat (S (length L)) - 1)
      with (Z.of_nat (length (rev L))) by (rewrite length_rev; lia).
    rewrite <- app_assoc. cbn [app].
    rewrite save_row_whole by exact Hrow.
    rewrite length_rev.
    rewrite IH; [|right; exact Hw|exact HfitL].
    unfold encode_row at 2. rewrite Hwidth, Nat2Z.id.
    now rewrite <- app_assoc.
Qed.
End SaveRows.

(** The first row [save] writes is row [height - 1]; there are [height]
    of them. *)
Lemma save_first_row h :
  0 <= h <= INT_MAX ->
  to_int32 (wrap32 (h - 1)) = h - 1.
Proof.
  intros Hh. unfold INT_MAX in Hh.
  destruct (Z.eq_dec h 0) as [->|Hnz]; [reflexivity|].
  rewrite wrap32_small by (pow_consts; lia).
  apply to_int32_small. pow_consts. lia.
Qed.

(** On a matrix that fits the info block, [save] writes the two structs
    and then the rows from the last to the first. *)
Lemma save_returns st :
  dims_ok (info_block st) ->
  grid_fits (info_block st) (pixels st) ->
  save st =
    Returns (file_header_bytes (file_header st) ++
             info_block_bytes (info_block st) ++
             flat_map (encode_row (info_block st)) (rev (pixels st))) st.
Proof.
  intros (Hw0 & Hh & Hw) [Hlen Hfit]. unfold save. cbv zeta.
  rewrite save_first_row by lia.
  replace (Z.to_nat (height (info_block st) - 1 + 1))
    with (length (rev (pixels st))) by (rewrite length_rev; lia).
  replace (height (info_block st) - 1)
    with (Z.of_nat (length (rev (pixels st))) - 1)
    by (rewrite length_rev; lia).
  rewrite <- (rev_involutive (pixels st)) at 3.
  rewrite <- (app_nil_r (rev (rev (pixels st)))).
  rewrite (save_rows_scan (info_block st)
             (Z.to_nat (width (info_block st)))).
  - now rewrite <- app_assoc.
  - lia.
  - destruct Hw as [Hz|Hw]; [left|right; lia].
    destruct (pixels st); [reflexivity|simpl in Hlen; lia].
  - apply Forall_rev. apply Forall_width_nat. exact Hfit.
Qed.

(** ** [read] followed by [save] *)

Lemma firstn_plus {A} n m (l : list A) :
  firstn n l ++ firstn m (skipn n l) = firstn (n + m) l.
Proof.
  revert l; induction n as [|n IH]; intros l; [reflexivity|].
  destruct l as [|a l]; [now rewrite !firstn_nil|].
  cbn [Nat.add firstn skipn app]. now rewrite IH.
Qed.

(** The two structs are written back as the 54 bytes they were read from. *)
Lemma structs_bytes_of data :
  (54 <= length data)%nat ->
  file_header_bytes (header_of data) ++ info_block_bytes (info_of data)
  = firstn 54 data.
Proof.
  intros Hlen. unfold header_of, info_of, field. cbn [skipn].
  rewrite file_header_bytes_parse
    by (rewrite length_firstn; unfold sizeof_BMPFileHeader; lia).
  rewrite info_block_bytes_parse
    by (rewrite length_firstn, length_skipn;
        unfold sizeof_BMPFileInfoBlock, sizeof_BMPFileHeader; lia).
  apply (firstn_plus 14 40).
Qed.

Lemma readable_dims data : readable data -> dims_ok (info_of data).
Proof. intros (_ & _ & _ & H). exact H. Qed.

(** After [read] on a readable file, [save] writes the 54 header bytes and
    then one encoded row per matrix row, last row first. *)
Lemma read_then_save fs file_path st data :
  fs file_path = Some data ->
  readable data ->
  reusable (info_of data) (pixels st) ->
  exists st',
    read fs file_path st = Returns tt st' /\
    file_header st' = header_of data /\
    info_block st' = info_of data /\
    pixels st' = decoded_grid data (pixels st) /\
    save st' =
      Returns (firstn 54 data ++
               flat_map (encode_row (info_of data))
                        (rev (decoded_grid data (pixels st)))) st'.
Proof.
  intros Hfs Hr Hre. eexists. split; [apply read_returns; eassumption|].
  repeat (split; [reflexivity|]).
  rewrite save_returns; cbn [file_header info_block pixels].
  - rewrite app_assoc, structs_bytes_of by apply Hr. reflexivity.
  - apply readable_dims. exact Hr.
  - apply decoded_grid_fits. exact Hre.
Qed.

Lemma unpack_color_length p : length (unpack_color p) = 3%nat.
Proof. reflexivity. Qed.

Lemma flat_map_unpack_length cs :
  length (flat_map unpack_color cs) = (3 * length cs)%nat.
Proof.
  induction cs as [|c cs IH]; [reflexivity|].
  cbn [flat_map]. rewrite length_app, IH, unpack_color_length. simpl. lia.
Qed.

Lemma flat_map_triple_length cells :
  length (flat_map triple_bytes cells) = (3 * length cells)%nat.
Proof.
  induction cells as [|[[b g] r] cells IH]; [reflexivity|].
  cbn [flat_map triple_bytes app length]. rewrite IH. lia.
Qed.

(** The number of bytes [save] writes for a row: the three bytes of each
    pixel, and padding only up to [row_stride]. *)
Lemma encode_row_length ib row :
  0 <= width ib <= Z.of_nat (length row) ->
  Z.of_nat (length (encode_row ib row))
  = Z.max (3 * width ib) (to_size_t (row_stride ib)).
Proof.
  intros Hw. unfold encode_row, pad_row.
  rewrite length_app, repeat_length, flat_map_unpack_length, length_firstn.
  lia.
Qed.

Lemma encoded_rows_length ib px :
  0 <= width ib ->
  Forall (fun row => width ib <= Z.of_nat (length row)) px ->
  Z.of_nat (length (flat_map (encode_row ib) px))
  = Z.of_nat (length px) * Z.max (3 * width ib) (to_size_t (row_stride ib)).
Proof.
  intros Hw Hfit. induction Hfit as [|row px Hrow Hfit IH]; [reflexivity|].
  cbn [flat_map length]. rewrite length_app, Nat2Z.inj_add, Nat2Z.inj_succ.
  rewrite IH, encode_row_length by lia. lia.
Qed.

(** The length of what [save] writes after the 54 header bytes. *)
Lemma save_pixel_bytes_length st :
  dims_ok (info_block st) ->
  grid_fits (info_block st) (pixels st) ->
  exists body,
    save st = Returns (file_header_bytes (file_header st) ++
                       info_block_bytes (info_block st) ++ body) st /\
    Z.of_nat (length body)
    = height (info_block st) *
      Z.max (3 * width (info_block st))
            (to_size_t (row_stride (info_block st))).
Proof.
  intros Hd Hg. eexists. split; [apply save_returns; assumption|].
  destruct Hg as [Hlen Hfit]. destruct Hd as (Hw0 & _).
  rewrite encoded_rows_length, length_rev, Hlen; [reflexivity|exact Hw0|].
  apply Forall_rev. exact Hfit.
Qed.

(** A row read from a well-laid-out, zero-padded disk row is written back
    as that disk row, as long as [row_stride] does not wrap. *)
Lemma encode_row_disk_row ib row old :
  color_depth_in_bits ib = 24 ->
  24 * width ib + 31 < 2 ^ 32 ->
  row_fits (width ib) row -> zero_padded row ->
  encode_row ib (overwrite (map triple_color (row_cells row)) old)
  = disk_row_bytes row.
Proof.
  intros Hd Hb [Hcells Hpad] Hz. unfold encode_row, disk_row_bytes.
  replace (Z.to_nat (width ib))
    with (length (map triple_color (row_cells row)))
    by (rewrite length_map; lia).
  rewrite firstn_overwrite, flat_map_unpack_pack.
  unfold pad_row. f_equal. unfold zero_padded in Hz. rewrite Hz. f_equal.
  rewrite row_stride_eq by (assumption || lia).
  rewrite flat_map_triple_length.
  pose proof (disk_stride_bounds (width ib)) as B.
  unfold to_size_t. rewrite Z.mod_small by (pow_consts; lia). lia.
Qed.

Lemma encode_overlay_layout ib : forall rows old,
  color_depth_in_bits ib = 24 ->
  24 * width ib + 31 < 2 ^ 32 ->
  Forall (row_fits (width ib)) rows -> Forall zero_padded rows ->
  length old = length rows ->
  flat_map (encode_row ib)
    (overlay (map (fun r => map triple_color (row_cells r)) rows) old)
  = pixel_section rows.
Proof.
  induction rows as [|row rows IH]; intros old Hd Hb Hfit Hz Hlen;
    [reflexivity|].
  destruct old as [|o old]; [discriminate|]. injection Hlen as Hlen.
  inversion Hfit; inversion Hz; subst.
  unfold overlay. cbn [map combine flat_map fst snd].
  rewrite encode_row_disk_row by assumption.
  unfold pixel_section. cbn [flat_map]. f_equal.
  apply IH; assumption.
Qed.

(** The file's pixel section, at the declared offset. *)
Lemma decoded_grid_layout data old rows rest :
  color_depth_in_bits (info_of data) = 24 ->
  skipn (Z.to_nat (offset_to_pixel_data (header_of data))) data
    = pixel_section rows ++ rest ->
  Z.of_nat (length rows) = height (info_of data) ->
  Forall (row_fits (width (info_of data))) rows ->
  decoded_grid data old
  = rev (overlay (map (fun r => map triple_color (row_cells r)) rows)
                 (rev (resize (height (info_of data))
                              (repeat 0 (Z.to_nat (width (info_of data))))
                              old))).
Proof.
  intros Hd Hsec Hrows Hfit. unfold decoded_grid. cbv zeta.
  destruct (scan_rows_layout (info_of data) Hd (info_of_width_range data)
              rows (pixel_stream data) rest Hfit eq_refl Hsec)
    as (s' & E & _).
  replace (Z.to_nat (height (info_of data))) with (length rows) by lia.
  now rewrite E.
Qed.

(** ** The loop of [drawCross] *)

Lemma grid_set_row (pre : grid) row post x c :
  0 <= x < Z.of_nat (length row) ->
  grid_set (Z.of_nat (length pre)) x c (pre ++ row :: post)
  = Some (pre ++ update (Z.to_nat x) c row :: post).
Proof.
  intros Hx. unfold grid_set.
  destruct (Z.ltb_spec (Z.of_nat (length pre)) 0); [lia|].
  destruct (Z.ltb_spec x 0); [lia|]. cbn [orb].
  rewrite Nat2Z.id, nth_error_app_length.
  destruct (Nat.ltb_spec (Z.to_nat x) (length row)); [|lia].
  now rewrite update_app_length.
Qed.

Lemma cross_loop_rows ib color :
  0 <= width ib < 2 ^ 32 ->
  forall n (pre : grid) rows,
    (n <= length rows)%nat ->
    Z.of_nat (length pre) + Z.of_nat n <= width ib ->
    Forall (fun row => width ib <= Z.of_nat (length row)) (firstn n rows) ->
    cross_loop ib color n (Z.of_nat (length pre)) (pre ++ rows)
    = Some (pre ++ cross_rows (width ib) color n (Z.of_nat (length pre)) rows).
Proof.
  intros Hw. induction n as [|n IH]; intros pre rows Hn Hi Hfit.
  - destruct rows; reflexivity.
  - destruct rows as [|row rest]; [simpl in Hn; lia|].
    cbn [firstn] in Hfit. inversion Hfit as [|? ? Hrow Hfit']; subst.
    cbn [cross_loop cross_rows length] in *.
    rewrite grid_set_row by lia.
    replace (wrap32 (wrap32 (width ib - Z.of_nat (length pre)) - 1))
      with (width ib - 1 - Z.of_nat (length pre)).
    2:{ rewrite (wrap32_small (width ib - _)) by lia.
        rewrite wrap32_small by lia. lia. }
    rewrite grid_set_row by (rewrite update_length; lia).
    fold (cross_row (width ib) color (Z.of_nat (length pre)) row).
    replace (pre ++ cross_row (width ib) color (Z.of_nat (length pre)) row
                 :: rest)
      with ((pre ++ [cross_row (width ib) color (Z.of_nat (length pre)) row])
              ++ rest) by (now rewrite <- app_assoc).
    replace (Z.of_nat (length pre) + 1)
      with (Z.of_nat (length (pre ++
              [cross_row (width ib) color (Z.of_nat (length pre)) row])))
      by (rewrite length_app; simpl; lia).
    rewrite IH.
    + now rewrite <- app_assoc.
    + lia.
    + rewrite length_app. simpl. lia.
    + exact Hfit'.
Qed.

Lemma cross_row_length w c i row : length (cross_row w c i row) = length row.
Proof. unfold cross_row. now rewrite !update_length. Qed.

Lemma cross_rows_shape w c : forall n i rows,
  map (@length Z) (cross_rows w c n i rows) = map (@length Z) rows.
Proof.
  induction n as [|n IH]; intros i [|row rest]; try reflexivity.
  cbn [cross_rows map]. now rewrite cross_row_length, IH.
Qed.

Lemma nth_error_update {A} (l : list A) : forall n v x,
  nth_error (update n v l) x =
    if ((x =? n) && (n <? length l))%nat then Some v else nth_error l x.
Proof.
  induction l as [|a l IH]; intros n v x.
  - destruct n; simpl; rewrite andb_false_r; reflexivity.
  - destruct n as [|n], x as [|x]; try reflexivity.
    cbn [update nth_error length]. rewrite IH. reflexivity.
Qed.

Lemma nth_error_cross_rows w c : forall n i rows k,
  nth_error (cross_rows w c n i rows) k =
    if (k <? n)%nat
    then option_map (cross_row w c (i + Z.of_nat k)) (nth_error rows k)
    else nth_error rows k.
Proof.
  induction n as [|n IH]; intros i rows k.
  - destruct rows; reflexivity.
  - destruct rows as [|row rest].
    + cbn [cross_rows]. destruct k; destruct (_ <? _)%nat; reflexivity.
    + destruct k as [|k].
      * cbn. now rewrite Z.add_0_r.
      * cbn [cross_rows nth_error]. rewrite IH.
        change (S k <? S n)%nat with (k <? n)%nat.
        replace (i + 1 + Z.of_nat k) with (i + Z.of_nat (S k)) by lia.
        reflexivity.
Qed.

(** A cell after the cross was drawn over the first [n] rows. *)
Lemma grid_get_cross_rows w c n px r x :
  0 <= w -> Z.of_nat n <= w ->
  (n <= length px)%nat ->
  Forall (fun row => w <= Z.of_nat (length row)) (firstn n px) ->
  grid_get r x (cross_rows w c n 0 px) =
    if (0 <=? r) && (r <? Z.of_nat n) && ((x =? r) || (x =? w - 1 - r))
    then Some c
    else grid_get r x px.
Proof.
  intros Hw Hn Hlen Hfit. unfold grid_get.
  destruct (Z.ltb_spec r 0) as [Hr|Hr].
  { destruct (Z.leb_spec 0 r); [lia|]. reflexivity. }
  destruct (Z.leb_spec 0 r); [|lia]. cbn [orb andb].
  destruct (Z.ltb_spec x 0) as [Hx|Hx].
  { destruct (Z.eqb_spec x r); [lia|].
    destruct (Z.ltb_spec r (Z.of_nat n)); [|reflexivity].
    destruct (Z.eqb_spec x (w - 1 - r)); [lia|]. reflexivity. }
  rewrite nth_error_cross_rows. rewrite Z.add_0_l, Z2Nat.id by lia.
  destruct (Z.ltb_spec r (Z.of_nat n)) as [Hrn|Hrn];
    destruct (Nat.ltb_spec (Z.to_nat r) n); try lia; [|reflexivity].
  destruct (nth_error px (Z.to_nat r)) as [row|] eqn:Hrow;
    [|apply nth_error_None in Hrow; lia].
  assert (Hwr : w <= Z.of_nat (length row)).
  { rewrite Forall_forall in Hfit. apply Hfit.
    apply nth_error_In with (Z.to_nat r).
    rewrite nth_error_firstn.
    destruct (Nat.ltb_spec (Z.to_nat r) n); [exact Hrow|lia]. }
  cbn [option_map andb]. unfold cross_row.
  rewrite !nth_error_update, update_length.
  destruct (Z.eqb_spec x (w - 1 - r)) as [E2|E2].
  - subst x. rewrite Nat.eqb_refl.
    destruct (Nat.ltb_spec (Z.to_nat (w - 1 - r)) (length row)); [|lia].
    now rewrite orb_true_r.
  - destruct (Nat.eqb_spec (Z.to_nat x) (Z.to_nat (w - 1 - r))); [lia|].
    cbn [andb]. rewrite orb_false_r.
    destruct (Z.eqb_spec x r) as [E1|E1].
    + subst x. rewrite Nat.eqb_refl.
      destruct (Nat.ltb_spec (Z.to_nat r) (length row)); [|lia]. reflexivity.
    + destruct (Nat.eqb_spec (Z.to_nat x) (Z.to_nat r)); [lia|]. reflexivity.
Qed.

(** [drawCross] on a loaded editor whose matrix fits the info block. *)
Lemma drawCross_returns blue green red st :
  fileWasRead st = true ->
  0 <= width (info_block st) < 2 ^ 32 ->
  height (info_block st) <= INT_MAX ->
  grid_fits (info_block st) (pixels st) ->
  drawCross blue green red st =
    Returns tt
      {| file_header := file_header st;
         info_block := info_block st;
         pixels := cross_rows (width (info_block st))
                     (pack_color (byte.unsigned blue) (byte.unsigned green)
                                 (byte.unsigned red))
                     (Z.to_nat (Z.min (height (info_block st))
                                      (width (info_block st))))
                     0 (pixels st);
         fileWasRead := true |}.
Proof.
  intros Hflag Hw Hh [Hlen Hfit]. unfold drawCross. rewrite Hflag. cbn [negb].
  cbv zeta.
  destruct (Z.ltb_spec INT_MAX
              (Z.min (height (info_block st)) (width (info_block st))));
    [lia|].
  pose proof (cross_loop_rows (info_block st)
    (pack_color (byte.unsigned blue) (byte.unsigned green) (byte.unsigned red))
    Hw (Z.to_nat (Z.min (height (info_block st)) (width (info_block st))))
    [] (pixels st)) as E.
  cbn [app length] in E. change (Z.of_nat 0) with 0 in E.
  rewrite E; [reflexivity|lia|lia|].
  apply Forall_firstn. exact Hfit.
Qed.

(** ** Row order and packing *)

Lemma pack_color_sum blue green red :
  pack_color (byte.unsigned blue) (byte.unsigned green) (byte.unsigned red)
  = 65536 * byte.unsigned blue + 256 * byte.unsigned green + byte.unsigned red.
Proof.
  unfold pack_color.
  rewrite Z.or_to_plus
    by (Z.bitblast; destruct (Z.lt_ge_cases i 8); clear_byte_bits; btauto).
  rewrite Z.or_to_plus
    by (Z.bitblast; destruct (Z.lt_ge_cases i 16); clear_byte_bits; btauto).
  rewrite !Z.shiftl_mul_pow2 by lia.
  change (2 ^ 16) with 65536. change (2 ^ 8) with 256. lia.
Qed.

Lemma overlay_same_width w : forall scanned old,
  Forall (fun row => length row = w) scanned ->
  Forall (fun row => length row = w) old ->
  length scanned = length old ->
  overlay scanned old = scanned.
Proof.
  induction scanned as [|cs scanned IH]; intros old Hs Ho Hlen; [reflexivity|].
  destruct old as [|o old]; [discriminate|]. injection Hlen as Hlen.
  inversion Hs; inversion Ho; subst.
  unfold overlay. cbn [combine map fst snd]. f_equal.
  - apply overwrite_length_ge. lia.
  - apply IH; assumption.
Qed.

(** From an empty matrix, the decoded matrix is the scanned rows in
    reverse order. *)
Lemma decoded_grid_fresh data :
  decoded_grid data []
  = rev (fst (scan_rows (info_of data) (Z.to_nat (height (info_of data)))
                        (pixel_stream data))).
Proof.
  unfold decoded_grid. cbv zeta. f_equal.
  apply (overlay_same_width (Z.to_nat (width (info_of data)))).
  - apply scan_rows_widths.
  - apply Forall_rev. unfold resize. rewrite firstn_nil. cbn [app].
    apply Forall_forall. intros row Hin. apply repeat_spec in Hin. subst.
    apply repeat_length.
  - rewrite length_rev, scan_rows_length, resize_length;
      [reflexivity|apply info_of_height_range].
Qed.

(** ** When [read] returns *)

(** The inner loop only completes on a row that is wide enough. *)
Lemma read_row_needs_width n : forall x s (pre : grid) row post res,
  0 <= x ->
  read_row n x (Z.of_nat (length pre)) s (pre ++ row :: post) = Some res ->
  n = 0%nat \/ (Z.to_nat x + n <= length row)%nat.
Proof.
  induction n as [|n IH]; intros x s pre row post res Hx Hres; [now left|].
  right. cbn [read_row] in Hres.
  destruct (read_u8 s) as [blue s1].
  destruct (read_u8 s1) as [green s2].
  destruct (read_u8 s2) as [red s3].
  destruct (Z_lt_ge_dec x (Z.of_nat (length row))) as [Hlt|Hge].
  - rewrite grid_set_row in Hres by lia.
    apply IH in Hres; [|lia].
    rewrite update_length in Hres. lia.
  - exfalso. unfold grid_set in Hres.
    destruct (Z.ltb_spec (Z.of_nat (length pre)) 0); [lia|].
    destruct (Z.ltb_spec x 0); [lia|]. cbn [orb] in Hres.
    rewrite Nat2Z.id, nth_error_app_length in Hres.
    destruct (Nat.ltb_spec (Z.to_nat x) (length row)); [lia|discriminate].
Qed.

Section ReadRowsInv.
Variable ib : BMPFileInfoBlock.
Variables W H : nat.
Hypothesis Hwidth : width ib = Z.of_nat W.
Hypothesis Hheight : height ib = Z.of_nat H.
Hypothesis Hh : Z.of_nat H <= INT_MAX.

(** If the outer loop completes, the width fits in an [int] and every
    row it wrote was wide enough. *)
Lemma read_rows_some_fits : forall L s upper res,
  (length L <= H)%nat ->
  read_rows ib (length L) (Z.of_nat (H - length L)) s (rev L ++ upper)
    = Some res ->
  (L = [] \/ Z.of_nat W <= INT_MAX) /\
  Forall (fun row => (W <= length row)%nat) L.
Proof.
  induction L as [|row L IH]; intros s upper res Hlen Hres.
  - split; [now left|constructor].
  - cbn [length] in Hlen, Hres. cbn [read_rows] in Hres.
    rewrite Hwidth, Hheight, Nat2Z.id in Hres.
    destruct (Z.ltb_spec INT_MAX (Z.of_nat W)) as [|Hw]; [discriminate|].
    replace (to_int32 (wrap32 (wrap32
               (Z.of_nat H - Z.of_nat (H - S (length L))) - 1)))
      with (Z.of_nat (length (rev L))) in Hres.
    2:{ rewrite length_rev.
        replace (Z.of_nat H - Z.of_nat (H - S (length L)))
          with (Z.of_nat (length L) + 1) by lia.
        unfold INT_MAX in Hh.
        rewrite (wrap32_small (Z.of_nat (length L) + 1)) by (pow_consts; lia).
        replace (Z.of_nat (length L) + 1 - 1) with (Z.of_nat (length L)) by lia.
        rewrite wrap32_small by (pow_consts; lia).
        rewrite to_int32_small by (pow_consts; lia). reflexivity. }
    cbn [rev] in Hres. rewrite <- app_assoc in Hres. cbn [app] in Hres.
    assert (Hrow : (W <= length row)%nat).
    { destruct (read_row W 0 _ s _) as [res1|] eqn:E; [|discriminate].
      apply read_row_needs_width in E; lia. }
    rewrite read_row_whole in Hres by exact Hrow.
    replace (Z.of_nat (H - S (length L)) + 1)
      with (Z.of_nat (H - length L)) in Hres by lia.
    apply IH in Hres; [|lia].
    split; [now right|]. constructor; [exact Hrow|apply Hres].
Qed.
End ReadRowsInv.

(** [read] returns exactly on the readable files whose image fits the rows
    kept from the old matrix, and then leaves the state of [read_returns]. *)
Lemma read_Returns_inv fs file_path st st' :
  read fs file_path st = Returns tt st' ->
  exists data,
    fs file_path = Some data /\
    readable data /\
    reusable (info_of data) (pixels st) /\
    st' = {| file_header := header_of data;
             info_block := info_of data;
             pixels := decoded_grid data (pixels st);
             fileWasRead := true |}.
Proof.
  intros Hread.
  destruct (fs file_path) as [data|] eqn:Hfs;
    [|unfold read in Hread; rewrite Hfs in Hread; discriminate].
  exists data. split; [reflexivity|].
  destruct (Nat.lt_ge_cases (length data) 54) as [Hshort|Hlen].
  { destruct (read_short_file fs file_path st data Hfs Hshort)
      as (st1 & E & _). congruence. }
  pose proof Hread as Hread0.
  rewrite (read_past_headers fs file_path st data Hfs Hlen) in Hread.
  cbv zeta in Hread.
  destruct (Z.eqb_spec (type_of_file (header_of data)) 19778) as [Hm|];
    [|discriminate].
  destruct (Z.eqb_spec (color_depth_in_bits (info_of data)) 24) as [Hd|];
    [|discriminate].
  cbn [negb] in Hread.
  destruct (Z.ltb_spec INT_MAX (height (info_of data))) as [|Hh];
    [discriminate|].
  destruct (read_rows _ _ _ _ _) as [res|] eqn:Hrows; [|discriminate].
  pose proof (info_of_width_range data) as Wr.
  pose proof (info_of_height_range data) as Hr.
  set (px0 := resize (height (info_of data))
                (repeat 0 (Z.to_nat (width (info_of data)))) (pixels st)) in *.
  assert (Hpx0 : length px0 = Z.to_nat (height (info_of data)))
    by (apply resize_length; lia).
  pose proof (read_rows_some_fits (info_of data)
                (Z.to_nat (width (info_of data)))
                (Z.to_nat (height (info_of data)))
                ltac:(lia) ltac:(lia) ltac:(lia) (rev px0) (pixel_stream data)
                [] res) as Inv.
  rewrite length_rev, Hpx0, Nat.sub_diag, rev_involutive, app_nil_r in Inv.
  destruct (Inv (Nat.le_refl _) Hrows) as [Hw Hfit].
  assert (Hre : reusable (info_of data) (pixels st)).
  { unfold reusable. apply Forall_width_Z; [lia|].
    apply Forall_rev in Hfit. rewrite rev_involutive in Hfit.
    unfold px0, resize in Hfit. apply Forall_app in Hfit. apply Hfit. }
  assert (Hrd : readable data).
  { repeat split; try assumption; try lia.
    destruct Hw as [Hnil|Hw]; [left|right; lia].
    apply (f_equal (@length _)) in Hnil.
    rewrite length_rev, Hpx0 in Hnil. cbn [length] in Hnil. lia. }
  repeat split; try assumption; try apply Hrd.
  rewrite (read_returns fs file_path st data Hfs Hrd Hre) in Hread0.
  now injection Hread0.
Qed.

(** ** Facts about the example files *)

Ltac compute_Z :=
  match goal with
  | |- (_ <= _)%nat => vm_compute; lia
  | |- _ <= _ => vm_compute; discriminate
  | |- _ < _ => vm_compute; reflexivity
  | |- _ = _ => vm_compute; reflexivity
  end.

Ltac prove_readable :=
  unfold readable, dims_ok;
  repeat match goal with
         | |- _ /\ _ => split
         | |- _ \/ _ => right
         | |- _ => compute_Z
         end.

Lemma readable_image_2x2 : readable image_2x2.
Proof. prove_readable. Qed.

Lemma readable_truncated_2x2 : readable truncated_2x2.
Proof. prove_readable. Qed.

Lemma readable_compressed_2x2 : readable compressed_2x2.
Proof. prove_readable. Qed.

Lemma readable_image_3x2 : readable image_3x2.
Proof. prove_readable. Qed.

Lemma holds_image_3x2 : holds_image image_3x2 [row_S0; row_S1] [].
Proof. repeat split; try reflexivity. repeat constructor. Qed.

Lemma rows_fit_2x2 : Forall (row_fits 2) [row_R0; row_R1].
Proof. repeat constructor. Qed.

Lemma holds_image_2x2 : holds_image image_2x2 [row_R0; row_R1] [].
Proof. repeat split; try reflexivity. exact rows_fit_2x2. Qed.

Lemma well_formed_image_2x2 : well_formed_bmp image_2x2 [row_R0; row_R1] [].
Proof.
  split; [exact readable_image_2x2|]. split; [reflexivity|].
  split; [exact holds_image_2x2|]. repeat constructor.
Qed.

Lemma reusable_fresh ib : reusable ib (pixels fresh_editor).
Proof. apply reusable_nil. Qed.

(** ** Properties of the specification *)

(** C4. [read] inverts the bottom-up row order of the file: the [x]-th
    pixel of the [d]-th disk row (blue, green, red, in read order) ends up
    in matrix row [height - 1 - d], column [x], as the color
    [blue * 2^16 + green * 2^8 + red] (blue in bits 16-23, green in bits
    8-15, red in bits 0-7). Read into an empty matrix, the image is the
    disk rows in reverse order, so row 0 is the last row stored. *)
Theorem read_inverts_row_order fs file_path st data rows rest :
  fs file_path = Some data ->
  readable data ->
  reusable (info_of data) (pixels st) ->
  holds_image data rows rest ->
  exists st',
    read fs file_path st = Returns tt st' /\
    (forall (d x : nat) row blue green red,
        nth_error rows d = Some row ->
        nth_error (row_cells row) x = Some (blue, green, red) ->
        grid_get (height (info_block st') - 1 - Z.of_nat d) (Z.of_nat x)
                 (pixels st')
        = Some (65536 * byte.unsigned blue + 256 * byte.unsigned green
                + byte.unsigned red)) /\
    (pixels st = [] ->
     pixels st' = rev (map (fun r => map triple_color (row_cells r)) rows)).
Proof.
  intros Hfs Hr Hre (Hsec & Hrows & Hfit).
  eexists. split; [apply read_returns; eassumption|].
  cbn [pixels info_block].
  assert (Hd : color_depth_in_bits (info_of data) = 24) by apply Hr.
  pose proof (info_of_height_range data) as Hh.
  pose proof (info_of_width_range data) as Hw.
  split.
  - intros d x row blue green red Hrow Hcell.
    rewrite (decoded_grid_layout data (pixels st) rows rest Hd Hsec Hrows Hfit).
    set (scanned := map (fun r => map triple_color (row_cells r)) rows).
    set (old := rev (resize _ _ _)).
    assert (Hlen : length scanned = length old).
    { unfold scanned, old. rewrite length_map, length_rev, resize_length; lia. }
    assert (Hs : nth_error scanned d
                 = Some (map triple_color (row_cells row))).
    { unfold scanned. now rewrite nth_error_map, Hrow. }
    destruct (nth_error_rev_overlay scanned old d _ Hlen Hs) as (o & Ho).
    assert (Hdlt : (d < length rows)%nat)
      by (apply nth_error_Some; congruence).
    replace (height (info_of data) - 1 - Z.of_nat d)
      with (Z.of_nat (length old - 1 - d))
      by (rewrite <- Hlen; unfold scanned; rewrite length_map; lia).
    rewrite grid_get_nat, Ho.
    rewrite <- pack_color_sum.
    apply nth_error_overwrite.
    now rewrite nth_error_map, Hcell.
  - intros Hnil. rewrite Hnil, decoded_grid_fresh.
    destruct (scan_rows_layout (info_of data) Hd Hw rows (pixel_stream data)
                rest Hfit eq_refl Hsec) as (s' & E & _).
    replace (Z.to_nat (height (info_of data))) with (length rows) by lia.
    now rewrite E.
Qed.

(** The 2x2 image: matrix row 0 is disk row R1 (stored last, displayed on
    top), matrix row 1 is disk row R0. *)
Lemma read_inverts_row_order_witness :
  exists st',
    read (one_file image_2x2) "image.bmp" fresh_editor = Returns tt st' /\
    pixels st' = [map triple_color (row_cells row_R1);
                  map triple_color (row_cells row_R0)].
Proof.
  destruct (read_inverts_row_order (one_file image_2x2) "image.bmp"
              fresh_editor image_2x2 [row_R0; row_R1] [] eq_refl
              readable_image_2x2 (reusable_fresh _) holds_image_2x2)
    as (st' & Hread & _ & Hfresh).
  exists st'. split; [exact Hread|]. exact (Hfresh eq_refl).
Defined.

(** C10. After a successful [read], [drawCross blue green red] returns
    and assigns the packed color [(blue << 16) | (green << 8) | red] to
    exactly the cells [(i, i)] and [(i, width - 1 - i)] with
    [0 <= i < min height width]; every other cell, the two structs, the
    flag and the shape of the matrix are unchanged. *)
Theorem drawCross_frame fs file_path st0 st blue green red :
  read fs file_path st0 = Returns tt st ->
  exists st',
    drawCross blue green red st = Returns tt st' /\
    file_header st' = file_header st /\
    info_block st' = info_block st /\
    fileWasRead st' = fileWasRead st /\
    map (@length Z) (pixels st') = map (@length Z) (pixels st) /\
    forall r x,
      grid_get r x (pixels st') =
        if on_cross (info_block st) r x
        then Some (pack_color (byte.unsigned blue) (byte.unsigned green)
                              (byte.unsigned red))
        else grid_get r x (pixels st).
Proof.
  intros Hread.
  destruct (read_Returns_inv _ _ _ _ Hread)
    as (data & Hfs & Hrd & Hre & ->).
  pose proof (decoded_grid_fits data (pixels st0) Hre) as Hg.
  pose proof (info_of_width_range data) as Wr.
  pose proof (info_of_height_range data) as Hr.
  destruct Hrd as (_ & _ & _ & _ & Hh & _).
  eexists. split.
  { apply drawCross_returns; cbn [fileWasRead info_block pixels];
      [reflexivity|exact Wr|exact Hh|exact Hg]. }
  cbn [file_header info_block fileWasRead pixels].
  repeat (split; [reflexivity|]).
  split; [apply cross_rows_shape|].
  intros r x. destruct Hg as [Hlen Hfit].
  rewrite grid_get_cross_rows.
  - unfold on_cross. rewrite Z2Nat.id by lia. reflexivity.
  - lia.
  - lia.
  - lia.
  - apply Forall_firstn. exact Hfit.
Qed.

(** The cross on the 3x2 image, in orange: cells (0,0), (0,2) and (1,1)
    are assigned; (0,1), (1,0) and (1,2) keep their colors. *)
Lemma drawCross_frame_witness :
  exists st st',
    read (one_file image_3x2) "image.bmp" fresh_editor = Returns tt st /\
    drawCross Byte.x00 Byte.xa5 Byte.xff st = Returns tt st' /\
    pixels st = [[2105634; 2303013; 2500392]; [1052946; 1250325; 1447704]] /\
    pixels st' = [[42495; 2303013; 42495]; [1052946; 42495; 1447704]].
Proof.
  eexists. 
  destruct (drawCross_frame (one_file image_3x2) "image.bmp" fresh_editor
              _ Byte.x00 Byte.xa5 Byte.xff
              (read_returns _ _ _ _ eq_refl readable_image_3x2
                            (reusable_fresh _)))
    as (st' & Hdraw & _).
  exists st'. split; [apply read_returns;
                      [reflexivity|exact readable_image_3x2|apply reusable_fresh]|].
  split; [exact Hdraw|].
  split; [reflexivity|].
  vm_compute in Hdraw. injection Hdraw as <-. reflexivity.
Defined.

(** C5, as stated, fails at width 2: the stride there is 8 in [read] and
    in [save] (and in the formula), not 4. *)
Lemma stride_of_width_2_is_8 :
  row_size (info_24bit 2 1) = 8 /\
  row_stride (info_24bit 2 1) = 8 /\
  (3 * 2 + 3) / 4 * 4 = 8 /\
  row_stride (info_24bit 2 1) <> 4.
Proof. repeat split. discriminate. Qed.

(** C5, amended. For a 24-bit image whose width [w] satisfies
    [24 * w + 31 < 2^32], the row size computed by [read] and the row
    stride computed by [save] are both [((3w+3)/4)*4]; for w = 1, 2, 3, 4,
    5 this is 4, 8, 12, 12, 16. *)
Theorem strides_agree ib :
  color_depth_in_bits ib = 24 ->
  0 <= width ib ->
  24 * width ib + 31 < 2 ^ 32 ->
  row_size ib = (3 * width ib + 3) / 4 * 4 /\
  row_stride ib = (3 * width ib + 3) / 4 * 4 /\
  map (fun w => row_size (info_24bit w 1)) [1; 2; 3; 4; 5]
    = [4; 8; 12; 12; 16] /\
  map (fun w => row_stride (info_24bit w 1)) [1; 2; 3; 4; 5]
    = [4; 8; 12; 12; 16].
Proof.
  intros Hd Hw Hb. split; [|split; [|split; reflexivity]].
  - apply row_size_eq; [exact Hd|exact Hw|]. pow_consts. lia.
  - apply row_stride_eq; assumption.
Qed.

Lemma strides_agree_witness :
  row_size (info_24bit 5 1) = 16 /\ row_stride (info_24bit 5 1) = 16.
Proof.
  destruct (strides_agree (info_24bit 5 1) eq_refl
              ltac:(vm_compute; discriminate) ltac:(vm_compute; reflexivity))
    as (Hsize & Hstride & _).
  split; [exact Hsize|exact Hstride].
Defined.

(** C3, as stated, fails: a file whose [type_of_compression] is 1 is read
    like any other. *)
Lemma read_accepts_compressed_file :
  type_of_compression (info_of compressed_2x2) = 1 /\
  read (one_file compressed_2x2) "rle.bmp" fresh_editor
  = Returns tt {| file_header := header_of compressed_2x2;
                  info_block := info_of compressed_2x2;
                  pixels := [[460809; 658188]; [66051; 263430]];
                  fileWasRead := true |}.
Proof. split; reflexivity. Qed.

(** C3, amended. [read] does not look at [type_of_compression]: every file
    that holds both structs, starts with "BM" and has depth 24 (with
    dimensions the [int] counters can hold, and rows that fit) is read with
    success whatever the value [c] of the field, and the info block keeps
    [c] as it was read. *)
Theorem read_ignores_compression fs file_path st data c :
  fs file_path = Some data ->
  readable data ->
  reusable (info_of data) (pixels st) ->
  type_of_compression (info_of data) = c ->
  exists st',
    read fs file_path st = Returns tt st' /\
    type_of_compression (info_block st') = c /\
    fileWasRead st' = true.
Proof.
  intros Hfs Hrd Hre Hc. eexists.
  split; [apply read_returns; eassumption|].
  cbn [info_block fileWasRead]. auto.
Qed.

Lemma read_ignores_compression_witness :
  exists st',
    read (one_file compressed_2x2) "rle.bmp" fresh_editor = Returns tt st' /\
    type_of_compression (info_block st') = 1.
Proof.
  destruct (read_ignores_compression (one_file compressed_2x2) "rle.bmp"
              fresh_editor compressed_2x2 1 eq_refl readable_compressed_2x2
              (reusable_fresh _) eq_refl)
    as (st' & Hread & Hc & _).
  exists st'. split; [exact Hread|exact Hc].
Defined.

(** C6, as stated, fails: a [read] that throws after an earlier successful
    one has already overwritten both structs; the editor is left with the
    structs of the rejected 3x2 file, the matrix of the 2x2 image and the
    flag set. *)
Lemma failed_read_overwrites_structs :
  read (one_file image_2x2) "image.bmp" fresh_editor = Returns tt loaded_2x2 /\
  read (one_file not_bmp_3x2) "other.bmp" loaded_2x2
  = Throws NotBmpType {| file_header := header_of not_bmp_3x2;
                         info_block := info_of not_bmp_3x2;
                         pixels := pixels loaded_2x2;
                         fileWasRead := true |} /\
  type_of_file (header_of not_bmp_3x2) = 22616 /\
  width (info_of not_bmp_3x2) = 3 /\
  file_header loaded_2x2 <> header_of not_bmp_3x2 /\
  info_block loaded_2x2 <> info_of not_bmp_3x2.
Proof.
  repeat split; try reflexivity; vm_compute; discriminate.
Qed.

(** C6, amended. When [read] throws, the pixel matrix and the flag are
    what they were before the call, and a file that cannot be opened
    leaves the whole editor unchanged; the two structs hold whatever bytes
    were read before the throw. *)
Theorem read_failure_keeps_matrix fs file_path st e st' :
  read fs file_path st = Throws e st' ->
  pixels st' = pixels st /\
  fileWasRead st' = fileWasRead st /\
  (e = CannotOpen -> st' = st).
Proof.
  intros Hread.
  destruct (fs file_path) as [data|] eqn:Hfs.
  - destruct (Nat.lt_ge_cases (length data) 54) as [Hshort|Hlen].
    + destruct (read_short_file fs file_path st data Hfs Hshort)
        as (st1 & E & Hpx & Hflag).
      rewrite E in Hread. injection Hread as <- <-.
      repeat split; try assumption. discriminate.
    + rewrite (read_past_headers fs file_path st data Hfs Hlen) in Hread.
      cbv zeta in Hread.
      destruct (negb (type_of_file (header_of data) =? 19778)).
      { injection Hread as <- <-. repeat split. discriminate. }
      destruct (negb (color_depth_in_bits (info_of data) =? 24)).
      { injection Hread as <- <-. repeat split. discriminate. }
      destruct (INT_MAX <? height (info_of data)); [discriminate|].
      destruct (read_rows _ _ _ _ _) as [[s px]|]; discriminate.
  - unfold read in Hread. rewrite Hfs in Hread.
    injection Hread as <- <-. repeat split.
Qed.

Lemma read_failure_keeps_matrix_witness :
  exists st',
    read (one_file not_bmp_3x2) "other.bmp" loaded_2x2 = Throws NotBmpType st' /\
    pixels st' = [[460809; 658188]; [66051; 263430]] /\
    fileWasRead st' = true.
Proof.
  eexists. split; [reflexivity|].
  destruct (read_failure_keeps_matrix (one_file not_bmp_3x2) "other.bmp"
              loaded_2x2 NotBmpType _ eq_refl) as (Hpx & Hflag & _).
  split; [exact Hpx|exact Hflag].
Defined.

(** ** The signature check *)

Lemma signature_bytes data :
  (2 <= length data)%nat ->
  type_of_file (header_of data) = 19778 <->
  firstn 2 data = [Byte.x42; Byte.x4d].
Proof.
  intros Hlen. unfold header_of, parse_file_header, field.
  cbn [type_of_file skipn]. rewrite firstn_firstn.
  change (Nat.min 2 sizeof_BMPFileHeader) with 2%nat.
  change 19778 with (le_combine [Byte.x42; Byte.x4d]).
  split.
  - intros E. apply le_combine_inj; [|exact E].
    rewrite length_firstn. cbn [length]. lia.
  - intros ->. reflexivity.
Qed.

(** C8, as stated, fails: twenty bytes that do not start with "BM" are
    rejected by [check_error] after the short read of the info block, with
    the read error and not with the signature error. *)
Lemma short_file_fails_before_signature_check :
  firstn 2 not_bmp_short <> [Byte.x42; Byte.x4d] /\
  exists st',
    read (one_file not_bmp_short) "short.bin" fresh_editor
    = Throws ReadError st'.
Proof.
  split; [discriminate|]. eexists. reflexivity.
Qed.

(** C8, amended. The signature is checked after both structs were read:
    a file shorter than 54 bytes fails with the read error whatever its
    first bytes; a file of at least 54 bytes fails with the signature error
    exactly when its first two bytes are not 0x42 0x4D ("BM"). *)
Theorem read_checks_signature fs file_path st data :
  fs file_path = Some data ->
  ((length data < 54)%nat ->
   exists st', read fs file_path st = Throws ReadError st') /\
  ((54 <= length data)%nat ->
   ((exists st', read fs file_path st = Throws NotBmpType st') <->
    firstn 2 data <> [Byte.x42; Byte.x4d])).
Proof.
  intros Hfs. split.
  - intros Hshort.
    destruct (read_short_file fs file_path st data Hfs Hshort)
      as (st1 & E & _).
    exists st1. exact E.
  - intros Hlen.
    rewrite (read_past_headers fs file_path st data Hfs Hlen). cbv zeta.
    rewrite <- signature_bytes by lia.
    destruct (Z.eqb_spec (type_of_file (header_of data)) 19778) as [Hm|Hm];
      cbn [negb].
    + split; [|intros Hne; contradiction].
      intros (st1 & E).
      destruct (negb (color_depth_in_bits (info_of data) =? 24));
        [discriminate|].
      destruct (INT_MAX <? height (info_of data)); [discriminate|].
      destruct (read_rows _ _ _ _ _) as [[s px]|]; discriminate.
    + split; [intros _; exact Hm|]. intros _. eexists. reflexivity.
Qed.

Lemma read_checks_signature_witness :
  exists st',
    read (one_file not_bmp_3x2) "other.bmp" fresh_editor
    = Throws NotBmpType st'.
Proof.
  destruct (read_checks_signature (one_file not_bmp_3x2) "other.bmp"
              fresh_editor not_bmp_3x2 eq_refl) as [_ Hlong].
  apply Hlong; [vm_compute; lia|discriminate].
Defined.

(** C2: [read] on the 2x2 image cut after its first pixel. No error is
    reported for the eleven missing pixel bytes; the cells that could not
    be read are left at 0 and the editor counts as loaded. *)
Theorem read_truncated_pixels_returns :
  length truncated_2x2 = 57%nat /\
  width (info_of truncated_2x2) = 2 /\
  height (info_of truncated_2x2) = 2 /\
  read (one_file truncated_2x2) "cut.bmp" fresh_editor
  = Returns tt {| file_header := header_of truncated_2x2;
                  info_block := info_of truncated_2x2;
                  pixels := [[0; 0]; [66051; 0]];
                  fileWasRead := true |}.
Proof. repeat split. Qed.

(** C7: on an editor that never read a file, [drawCross] throws, but
    [save] returns after writing the 54 bytes of the two (uninitialised,
    here zero) structs; whatever the structs hold, [save] throws nothing. *)
Theorem save_before_read_returns :
  fileWasRead fresh_editor = false /\
  drawCross Byte.x00 Byte.x00 Byte.x00 fresh_editor
  = Throws NotReadYet fresh_editor /\
  save fresh_editor = Returns (repeat Byte.x00 54) fresh_editor /\
  (forall fh0 ib0 e st', save (new_editor fh0 ib0) <> Throws e st').
Proof.
  repeat split. intros fh0 ib0 e st'. unfold save. cbv zeta.
  destruct (save_rows _ _ _ _ _); discriminate.
Qed.

(** ** The wide image *)

Lemma header_of_wide tail : header_of (wide_headers ++ tail) = wide_file_header.
Proof. reflexivity. Qed.

Lemma info_of_wide tail : info_of (wide_headers ++ tail) = wide_info.
Proof. reflexivity. Qed.

Lemma skipn_wide_headers tail : skipn 54 (wide_headers ++ tail) = tail.
Proof. reflexivity. Qed.

Lemma wide_stride_wraps :
  row_stride wide_info = 4 /\ row_size wide_info = 536870916 /\
  disk_stride wide_width = 536870916 /\ 3 * wide_width = 536870913.
Proof. repeat split. Qed.

Lemma dims_ok_wide : dims_ok wide_info.
Proof.
  unfold dims_ok, wide_info, wide_width, INT_MAX. cbn [width height]. lia.
Qed.

Lemma readable_wide_image : readable wide_image.
Proof.
  unfold readable, wide_image.
  rewrite header_of_wide, info_of_wide, length_app.
  change (length wide_headers) with 54%nat.
  split; [lia|]. split; [reflexivity|]. split; [reflexivity|].
  exact dims_ok_wide.
Qed.

Lemma wide_row_fits : row_fits wide_width wide_row.
Proof.
  unfold row_fits, wide_row. cbn [row_cells row_pad length].
  rewrite repeat_length. split; [unfold wide_width; lia|reflexivity].
Qed.

Lemma well_formed_wide_image : well_formed_bmp wide_image [wide_row] [].
Proof.
  split; [exact readable_wide_image|]. unfold holds_image, wide_image.
  rewrite header_of_wide, info_of_wide.
  split; [reflexivity|]. split; [|repeat constructor].
  split; [|split; [reflexivity|]].
  - change (Z.to_nat (offset_to_pixel_data wide_file_header)) with 54%nat.
    rewrite skipn_wide_headers. symmetry. apply app_nil_r.
  - constructor; [exact wide_row_fits|constructor].
Qed.

Lemma wide_section_length :
  Z.of_nat (length (pixel_section [wide_row])) = 536870916.
Proof.
  unfold pixel_section. cbn [flat_map]. rewrite app_nil_r.
  unfold disk_row_bytes, wide_row. cbn [row_cells row_pad].
  rewrite length_app, flat_map_triple_length, repeat_length.
  cbn [length]. unfold wide_width. lia.
Qed.

(** ** The round trip *)

(** For a well-formed file whose width keeps [width * 24 + 31] below
    2^32, [read] followed by [save] writes the 54 header bytes of the file
    and then its pixel section, byte for byte. *)
Lemma read_save_roundtrip fs file_path st data rows rest :
  fs file_path = Some data ->
  well_formed_bmp data rows rest ->
  reusable (info_of data) (pixels st) ->
  24 * width (info_of data) + 31 < 2 ^ 32 ->
  exists st',
    read fs file_path st = Returns tt st' /\
    file_header st' = header_of data /\
    info_block st' = info_of data /\
    save st' = Returns (firstn 54 data ++ pixel_section rows) st'.
Proof.
  intros Hfs (Hrd & _ & (Hsec & Hrows & Hfit) & Hz) Hre Hb.
  destruct (read_then_save fs file_path st data Hfs Hrd Hre)
    as (st' & Hread & Hfh & Hib & _ & Hsave).
  exists st'. repeat (split; [assumption|]).
  rewrite Hsave. f_equal. f_equal.
  assert (Hd : color_depth_in_bits (info_of data) = 24) by apply Hrd.
  rewrite (decoded_grid_layout data (pixels st) rows rest Hd Hsec Hrows Hfit).
  rewrite rev_involutive.
  apply encode_overlay_layout; try assumption.
  rewrite length_rev, resize_length; [lia|apply info_of_height_range].
Qed.

(** The 3x2 image (stride 12, three padding bytes per row) comes back
    byte for byte. *)
Lemma read_save_roundtrip_3x2 :
  exists st',
    read (one_file image_3x2) "image.bmp" fresh_editor = Returns tt st' /\
    save st' = Returns image_3x2 st'.
Proof.
  destruct (read_save_roundtrip (one_file image_3x2) "image.bmp" fresh_editor
              image_3x2 [row_S0; row_S1] [] eq_refl) as (st' & Hr & _ & _ & Hs).
  - split; [exact readable_image_3x2|]. split; [reflexivity|].
    split; [exact holds_image_3x2|]. repeat constructor.
  - apply reusable_fresh.
  - vm_compute. reflexivity.
  - exists st'. split; [exact Hr|exact Hs].
Qed.

(** C1: [read] then [save] on the wide image, a well-formed file. The
    pixel section of the file has 536870916 bytes (536870913 pixel bytes
    and 3 padding bytes); [save] writes 536870913 bytes after the headers:
    its [row_stride] wrapped to 4, so the row gets no padding. *)
Theorem wide_image_roundtrip_drops_padding :
  well_formed_bmp wide_image [wide_row] [] /\
  exists st body,
    read (one_file wide_image) "wide.bmp" fresh_editor = Returns tt st /\
    row_stride (info_block st) = 4 /\
    save st = Returns (firstn 54 wide_image ++ body) st /\
    Z.of_nat (length (pixel_section [wide_row])) = 536870916 /\
    Z.of_nat (length body) = 536870913.
Proof.
  split; [exact well_formed_wide_image|].
  destruct (read_then_save (one_file wide_image) "wide.bmp" fresh_editor
              wide_image eq_refl readable_wide_image (reusable_fresh _))
    as (st & Hread & _ & Hib & Hpx & Hsave).
  exists st. eexists. split; [exact Hread|].
  split; [rewrite Hib; unfold wide_image; rewrite info_of_wide; reflexivity|].
  split; [exact Hsave|]. split; [exact wide_section_length|].
  pose proof (decoded_grid_fits wide_image (pixels fresh_editor)
                (reusable_fresh _)) as [Hlen Hfit].
  rewrite encoded_rows_length, length_rev, Hlen.
  - unfold wide_image. rewrite info_of_wide. reflexivity.
  - apply info_of_width_range.
  - apply Forall_rev. exact Hfit.
Qed.

(** C9: [save] on the editor that holds the wide image. The matrix fits
    the info block; [row_stride] is 4 instead of 536870916, so the row is
    written as its 536870913 pixel bytes with no padding at all: the pixel
    section is neither [row_stride * height] nor a multiple of 4 long. *)
Theorem save_wide_row_unpadded :
  grid_fits (info_block wide_loaded) (pixels wide_loaded) /\
  row_stride (info_block wide_loaded) = 4 /\
  exists body,
    save wide_loaded
    = Returns (file_header_bytes (file_header wide_loaded) ++
               info_block_bytes (info_block wide_loaded) ++ body)
              wide_loaded /\
    Z.of_nat (length body) = 536870913 /\
    Z.of_nat (length body)
      <> row_stride (info_block wide_loaded) * height (info_block wide_loaded) /\
    Z.of_nat (length body) mod 4 <> 0.
Proof.
  assert (Hg : grid_fits (info_block wide_loaded) (pixels wide_loaded)).
  { unfold grid_fits, wide_loaded. cbn [info_block pixels]. split.
    - reflexivity.
    - constructor; [|constructor]. rewrite repeat_length.
      unfold wide_info, wide_width. cbn [width]. lia. }
  split; [exact Hg|]. split; [reflexivity|].
  destruct (save_pixel_bytes_length wide_loaded dims_ok_wide Hg)
    as (body & Hsave & Hlen).
  exists body. split; [exact Hsave|].
  assert (E : Z.of_nat (length body) = 536870913)
    by (rewrite Hlen; reflexivity).
  rewrite E. repeat split; discriminate.
Qed.

(** [save] writes the rows right after the 54 header bytes and echoes
    [offset_to_pixel_data]. For the 2x2 image stored at offset 58 the
    round trip still writes the header fields and the pixel section of the
    input, but the file written declares offset 58 while its rows start at
    54: read back, it gives another matrix. *)
Lemma save_echoes_declared_offset :
  well_formed_bmp gap_2x2 [row_R0; row_R1] [] /\
  exists st out st2,
    read (one_file gap_2x2) "gap.bmp" fresh_editor = Returns tt st /\
    pixels st = [[460809; 658188]; [66051; 263430]] /\
    save st = Returns out st /\
    out = firstn 54 gap_2x2 ++ pixel_section [row_R0; row_R1] /\
    offset_to_pixel_data (header_of out) = 58 /\
    read (one_file out) "out.bmp" fresh_editor = Returns tt st2 /\
    pixels st2 = [[723968; 0]; [329216; 1800]].
Proof.
  split.
  - split; [prove_readable|]. split; [vm_compute; reflexivity|].
    split; [|repeat constructor].
    split; [vm_compute; reflexivity|]. split; [vm_compute; reflexivity|].
    repeat constructor.
  - exists {| file_header := header_of gap_2x2;
              info_block := info_of gap_2x2;
              pixels := [[460809; 658188]; [66051; 263430]];
              fileWasRead := true |}.
    exists (firstn 54 gap_2x2 ++ pixel_section [row_R0; row_R1]).
    exists {| file_header := header_of gap_2x2;
              info_block := info_of gap_2x2;
              pixels := [[723968; 0]; [329216; 1800]];
              fileWasRead := true |}.
    repeat split; vm_compute; reflexivity.
Qed.

(** ** printImage *)

Lemma append_assoc (a b c : string) :
  String.append (String.append a b) c = String.append a (String.append b c).
Proof. induction a as [|ch a IH]; simpl; [reflexivity|now rewrite IH]. Qed.

Lemma append_nil_r (a : string) : String.append a EmptyString = a.
Proof. induction a as [|ch a IH]; simpl; [reflexivity|now rewrite IH]. Qed.





Lemma print_row_cells cells : forall (pre : grid) rpre rpost post out,
  print_row (length cells) (Z.of_nat (length rpre)) (Z.of_nat (length pre))
            (pre ++ (rpre ++ cells ++ rpost) :: post) out
  = Some (String.append out (join (map glyph cells))).
Proof.
  induction cells as [|c cells IH]; intros pre rpre rpost post out.
  - cbn. now rewrite append_nil_r.
  - cbn [length print_row app map join fold_right]. rewrite grid_get_at.
    replace (Z.of_nat (length rpre) + 1)
      with (Z.of_nat (length (rpre ++ [c])))
      by (rewrite length_app; simpl; lia).
    replace (rpre ++ c :: cells ++ rpost)
      with ((rpre ++ [c]) ++ cells ++ rpost) by (now rewrite <- app_assoc).
    rewrite IH. now rewrite append_assoc.
Qed.

Lemma print_row_whole w (pre : grid) row post out :
  (w <= length row)%nat ->
  print_row w 0 (Z.of_nat (length pre)) (pre ++ row :: post) out
  = Some (String.append out (join (map glyph (firstn w row)))).
Proof.
  intros Hw.
  pose proof (print_row_cells (firstn w row) pre [] (skipn w row) post out)
    as E.
  cbn [app length] in E. change (Z.of_nat 0) with 0 in E.
  rewrite firstn_skipn, length_firstn in E.
  replace (Nat.min w (length row)) with w in E by lia. exact E.
Qed.

Lemma print_rows_text ib : forall rows (pre : grid) out,
  0 <= width ib ->
  (rows = [] \/ width ib <= INT_MAX) ->
  Forall (fun row => width ib <= Z.of_nat (length row)) rows ->
  print_rows ib (length rows) (Z.of_nat (length pre)) (pre ++ rows) out
  = Some (String.append out (join (map (row_text (width ib)) rows))).
Proof.
  induction rows as [|row rows IH]; intros pre out Hw0 Hw Hfit.
  - cbn. now rewrite append_nil_r.
  - destruct Hw as [Hw|Hw]; [discriminate|].
    inversion Hfit as [|? ? Hrow Hfit']; subst.
    cbn [length print_rows map join fold_right].
    destruct (Z.ltb_spec INT_MAX (width ib)); [lia|].
    rewrite print_row_whole by lia.
    replace (pre ++ row :: rows) with ((pre ++ [row]) ++ rows)
      by (now rewrite <- app_assoc).
    replace (Z.of_nat (length pre) + 1)
      with (Z.of_nat (length (pre ++ [row])))
      by (rewrite length_app; simpl; lia).
    rewrite IH by (try assumption; right; exact Hw).
    unfold row_text at 2. now rewrite !append_assoc.
Qed.


Lemma printImage_returns st :
  dims_ok (info_block st) ->
  grid_fits (info_block st) (pixels st) ->
  printImage st
  = Returns (join (map (row_text (width (info_block st))) (pixels st))) st.
Proof.
  intros (Hw0 & Hh & Hw) [Hlen Hfit].
  unfold printImage. cbv zeta.
  destruct (Z.ltb_spec INT_MAX (height (info_block st))); [lia|].
  replace (Z.to_nat (height (info_block st))) with (length (pixels st))
    by lia.
  pose proof (print_rows_text (info_block st) (pixels st) [] EmptyString
                Hw0) as E.
  cbn [app length] in E. change (Z.of_nat 0) with 0 in E.
  rewrite E; [reflexivity| |exact Hfit].
  destruct Hw as [Hz|Hw]; [left|right; exact Hw].
  destruct (pixels st); [reflexivity|simpl in Hlen; lia].
Qed.



(** ** The outcomes of [read] *)

Ltac settle_throw :=
  solve [ intros _; eexists; reflexivity
        | intros []
        | intros Hlt; exfalso; lia
        | intros (Hge & _); exfalso; lia
        | intros (_ & Hne); contradiction
        | intros (_ & _ & Hne); contradiction
        | intros (_ & Hne & _); contradiction ].

(** X3. Which exception [read] throws, read off the file: no file, the
    open error; fewer than 54 bytes, the read error, whatever the bytes
    are; otherwise a signature other than "BM", the type error, whatever
    the depth; otherwise a depth other than 24, the depth error. [read]
    throws in no other case and never throws the error of [drawCross]. *)
Theorem read_throws_iff fs file_path st e :
  (exists st', read fs file_path st = Throws e st') <->
  match fs file_path with
  | None => e = CannotOpen
  | Some data =>
      match e with
      | ReadError => (length data < 54)%nat
      | NotBmpType =>
          (54 <= length data)%nat /\
          firstn 2 data <> [Byte.x42; Byte.x4d]
      | BadColorDepth =>
          (54 <= length data)%nat /\
          firstn 2 data = [Byte.x42; Byte.x4d] /\
          color_depth_in_bits (info_of data) <> 24
      | CannotOpen | NotReadYet => False
      end
  end.
Proof.
  destruct (fs file_path) as [data|] eqn:Hfs.
  - destruct (Nat.lt_ge_cases (length data) 54) as [Hshort|Hlen].
    + destruct (read_short_file fs file_path st data Hfs Hshort)
        as (st1 & E & _).
      rewrite E. split.
      * intros (st' & H'). injection H' as <- _. exact Hshort.
      * destruct e; settle_throw.
    + rewrite (read_past_headers fs file_path st data Hfs Hlen). cbv zeta.
      pose proof (signature_bytes data ltac:(lia)) as Hsig.
      destruct (Z.eqb_spec (type_of_file (header_of data)) 19778) as [Hm|Hm];
        cbn [negb].
      * pose proof (proj1 Hsig Hm) as Hbm.
        destruct (Z.eqb_spec (color_depth_in_bits (info_of data)) 24)
          as [Hd|Hd]; cbn [negb].
        -- split.
           ++ intros (st' & H').
              destruct (INT_MAX <? height (info_of data)); [discriminate|].
              destruct (read_rows _ _ _ _ _) as [[s px]|]; discriminate.
           ++ destruct e; settle_throw.
        -- split.
           ++ intros (st' & H'). injection H' as <- _. auto.
           ++ destruct e; settle_throw.
      * assert (Hbm : firstn 2 data <> [Byte.x42; Byte.x4d])
          by (intros Hb; apply Hm, Hsig, Hb).
        split.
        -- intros (st' & H'). injection H' as <- _. auto.
        -- destruct e; settle_throw.
  - unfold read. rewrite Hfs. split.
    + intros (st' & H'). now injection H' as <- _.
    + intros ->. exists st. reflexivity.
Qed.



(** ** The matrix [read] leaves *)

Lemma read_u8_byte s : exists b, fst (read_u8 s) = byte.unsigned b.
Proof.
  unfold read_u8. destruct (stream_read 1 s) as [[|b got] s'].
  - exists Byte.x00. reflexivity.
  - exists b. reflexivity.
Qed.

Lemma triple_color_range t : 0 <= triple_color t < 2 ^ 24.
Proof.
  destruct t as [[b g] r]. unfold triple_color. rewrite pack_color_sum.
  pose proof (byte.unsigned_range b). pose proof (byte.unsigned_range g).
  pose proof (byte.unsigned_range r).
  change (2 ^ 24) with 16777216. pow_consts. lia.
Qed.

Lemma scan_pixel_range s : 0 <= fst (scan_pixel s) < 2 ^ 24.
Proof.
  unfold scan_pixel.
  destruct (read_u8_byte s) as (b & Hb). destruct (read_u8 s) as [blue s1].
  destruct (read_u8_byte s1) as (g & Hg). destruct (read_u8 s1) as [green s2].
  destruct (read_u8_byte s2) as (r & Hr). destruct (read_u8 s2) as [red s3].
  cbn [fst] in *. subst. apply (triple_color_range (b, g, r)).
Qed.

Lemma scan_row_range n : forall s,
  Forall (fun c => 0 <= c < 2 ^ 24) (fst (scan_row n s)).
Proof.
  induction n as [|n IH]; intros s; [constructor|]. cbn [scan_row].
  pose proof (scan_pixel_range s) as Hc.
  destruct (scan_pixel s) as [c s1]. specialize (IH s1).
  destruct (scan_row n s1) as [cs s2]. cbn [fst] in *.
  constructor; assumption.
Qed.

Lemma scan_rows_exact ib n : forall s,
  0 <= width ib ->
  Forall (fun row => Z.of_nat (length row) = width ib /\
                     Forall (fun c => 0 <= c < 2 ^ 24) row)
         (fst (scan_rows ib n s)).
Proof.
  induction n as [|n IH]; intros s Hw; [constructor|]. cbn [scan_rows].
  pose proof (scan_row_length (Z.to_nat (width ib)) s) as Hl.
  pose proof (scan_row_range (Z.to_nat (width ib)) s) as Hr.
  destruct (scan_row (Z.to_nat (width ib)) s) as [row s1].
  match goal with |- context [scan_rows ib n ?s2] =>
    specialize (IH s2 Hw); destruct (scan_rows ib n s2) as [rows s3] end.
  cbn [fst] in *. constructor; [split; [lia|exact Hr]|exact IH].
Qed.

Lemma decoded_grid_exact data :
  exact_grid (info_of data) (decoded_grid data []).
Proof.
  pose proof (info_of_width_range data) as Wr.
  pose proof (info_of_height_range data) as Hr.
  rewrite decoded_grid_fresh. split.
  - rewrite length_rev, scan_rows_length. lia.
  - apply Forall_rev. apply scan_rows_exact. lia.
Qed.

(** X5. After a successful [read] the flag is set and the matrix has
    exactly [height] rows, each of at least [width] cells; when the editor
    held no matrix before, each row has exactly [width] cells and every
    cell is a 24-bit color (the top byte is zero). *)
Theorem read_matrix_shape fs file_path st st' :
  read fs file_path st = Returns tt st' ->
  fileWasRead st' = true /\
  grid_fits (info_block st') (pixels st') /\
  (pixels st = [] -> exact_grid (info_block st') (pixels st')).
Proof.
  intros Hread.
  destruct (read_Returns_inv _ _ _ _ Hread) as (data & _ & _ & Hre & ->).
  cbn [fileWasRead info_block pixels]. split; [reflexivity|].
  split; [apply decoded_grid_fits; exact Hre|].
  intros ->. apply decoded_grid_exact.
Qed.

Lemma read_matrix_shape_witness :
  grid_fits (info_of truncated_2x2) [[0; 0]; [66051; 0]] /\
  exact_grid (info_of truncated_2x2) [[0; 0]; [66051; 0]].
Proof.
  destruct (read_matrix_shape (one_file truncated_2x2) "cut.bmp" fresh_editor
              {| file_header := header_of truncated_2x2;
                 info_block := info_of truncated_2x2;
                 pixels := [[0; 0]; [66051; 0]];
                 fileWasRead := true |} eq_refl) as (_ & Hfit & Hexact).
  split; [exact Hfit|exact (Hexact eq_refl)].
Defined.

(** X6. For a 24-bit image of any 32-bit width, the padding [read] skips
    after a row is between 0 and 3 and brings the row to a multiple of 4
    bytes, also for the widths at which [row_size] itself wraps around. *)
Theorem read_padding_aligns ib :
  color_depth_in_bits ib = 24 ->
  0 <= width ib < 2 ^ 32 ->
  0 <= row_padding ib <= 3 /\
  (3 * width ib + row_padding ib) mod 4 = 0.
Proof.
  intros Hd Hw. rewrite row_padding_eq by assumption.
  split; [apply disk_stride_bounds|].
  unfold disk_stride.
  replace (3 * width ib + ((3 * width ib + 3) / 4 * 4 - 3 * width ib))
    with ((3 * width ib + 3) / 4 * 4) by lia.
  apply Z.mod_mul. discriminate.
Qed.

(** At width 1431655765 the sum [width * 3 + 3] is 2^32 + 2 and
    [row_size] wraps to 0; the padding is still 1. *)
Lemma read_padding_aligns_witness :
  row_size (info_24bit 1431655765 1) = 0 /\
  row_padding (info_24bit 1431655765 1) = 1 /\
  (3 * 1431655765 + row_padding (info_24bit 1431655765 1)) mod 4 = 0.
Proof.
  destruct (read_padding_aligns (info_24bit 1431655765 1) eq_refl
              ltac:(vm_compute; split; [discriminate|reflexivity]))
    as (_ & Hmod).
  split; [reflexivity|]. split; [reflexivity|exact Hmod].
Defined.

(** ** What [save] writes after [read] *)

Lemma clear_padding_fits w r : row_fits w r -> row_fits w (clear_padding r).
Proof.
  intros [Hc Hp]. split; [exact Hc|].
  unfold clear_padding. cbn [row_pad]. now rewrite repeat_length.
Qed.

Lemma clear_padding_zero r : zero_padded (clear_padding r).
Proof.
  unfold zero_padded, clear_padding. cbn [row_pad].
  now rewrite repeat_length.
Qed.

Lemma clear_padding_id r : zero_padded r -> clear_padding r = r.
Proof.
  unfold zero_padded, clear_padding. destruct r as [cells pad].
  cbn [row_pad row_cells]. now intros <-.
Qed.

Lemma map_clear_padding_id rows :
  Forall zero_padded rows -> map clear_padding rows = rows.
Proof.
  intros Hz. induction Hz as [|r rows Hr Hz IH]; [reflexivity|].
  cbn [map]. now rewrite clear_padding_id, IH.
Qed.

(** X1. The round trip on a file that holds its image. With
    [24 * width + 31 < 2^32], [read] followed by [save] writes the first 54
    bytes of the file and then its pixel rows with every padding byte set
    to zero: bytes between the structs and the pixel data and bytes after
    the pixel data are dropped, and a file whose padding is zero gets its
    pixel section back byte for byte. *)
Theorem read_save_clears_padding fs file_path st data rows rest :
  fs file_path = Some data ->
  readable data ->
  reusable (info_of data) (pixels st) ->
  holds_image data rows rest ->
  24 * width (info_of data) + 31 < 2 ^ 32 ->
  exists st',
    read fs file_path st = Returns tt st' /\
    save st' = Returns (firstn 54 data ++
                        pixel_section (map clear_padding rows)) st' /\
    (Forall zero_padded rows -> map clear_padding rows = rows).
Proof.
  intros Hfs Hrd Hre (Hsec & Hrows & Hfit) Hb.
  destruct (read_then_save fs file_path st data Hfs Hrd Hre)
    as (st' & Hread & _ & _ & _ & Hsave).
  exists st'. split; [exact Hread|]. split.
  - rewrite Hsave. f_equal. f_equal.
    assert (Hd : color_depth_in_bits (info_of data) = 24) by apply Hrd.
    rewrite (decoded_grid_layout data (pixels st) rows rest Hd Hsec Hrows Hfit).
    rewrite rev_involutive.
    replace (map (fun r => map triple_color (row_cells r)) rows)
      with (map (fun r => map triple_color (row_cells r))
                (map clear_padding rows))
      by (rewrite map_map; reflexivity).
    apply encode_overlay_layout; try assumption.
    + apply Forall_forall. intros r Hin. apply in_map_iff in Hin.
      destruct Hin as (r0 & <- & Hin0). apply clear_padding_fits.
      rewrite Forall_forall in Hfit. now apply Hfit.
    + apply Forall_forall. intros r Hin. apply in_map_iff in Hin.
      destruct Hin as (r0 & <- & _). apply clear_padding_zero.
    + rewrite length_rev, resize_length, length_map;
        [lia|apply info_of_height_range].
  - apply map_clear_padding_id.
Qed.

(** The 2x2 image with padding AA BB / CC DD and two trailing bytes comes
    back as the 2x2 image with zero padding and no trailing bytes. *)
Lemma read_save_clears_padding_witness :
  exists st',
    read (one_file padded_2x2) "padded.bmp" fresh_editor = Returns tt st' /\
    save st' = Returns image_2x2 st'.
Proof.
  destruct (read_save_clears_padding (one_file padded_2x2) "padded.bmp"
              fresh_editor padded_2x2 [row_Q0; row_Q1] (bytes [238; 255])
              eq_refl) as (st' & Hr & Hs & _).
  - prove_readable.
  - apply reusable_fresh.
  - split; [vm_compute; reflexivity|].
    split; [vm_compute; reflexivity|]. repeat constructor.
  - vm_compute. reflexivity.
  - exists st'. split; [exact Hr|exact Hs].
Defined.

Lemma firstn_app_exact {A} n (l1 l2 : list A) :
  length l1 = n -> firstn n (l1 ++ l2) = l1.
Proof.
  intros <-. rewrite firstn_app, Nat.sub_diag, firstn_all. cbn.
  apply app_nil_r.
Qed.

(** X4. After a successful [read], [save] on the editor, also with the
    matrix edited in place, writes back the first 54 bytes of the file as
    they were read (stale sizes included) and, with
    [24 * width + 31 < 2^32], exactly [54 + stride * height] bytes in all,
    however many pixel bytes the file held. *)
Theorem save_after_read_length fs file_path st0 st data px :
  fs file_path = Some data ->
  read fs file_path st0 = Returns tt st ->
  grid_fits (info_block st) px ->
  24 * width (info_block st) + 31 < 2 ^ 32 ->
  let st2 := {| file_header := file_header st; info_block := info_block st;
                pixels := px; fileWasRead := fileWasRead st |} in
  exists out,
    save st2 = Returns out st2 /\
    firstn 54 out = firstn 54 data /\
    Z.of_nat (length out)
    = 54 + disk_stride (width (info_block st)) * height (info_block st).
Proof.
  intros Hfs Hread Hg Hb st2.
  destruct (read_Returns_inv _ _ _ _ Hread)
    as (data' & Hfs' & Hrd & _ & Hst).
  rewrite Hfs in Hfs'. injection Hfs' as <-.
  assert (Hfh : file_header st = header_of data) by (now rewrite Hst).
  assert (Hib : info_block st = info_of data) by (now rewrite Hst).
  assert (Hd : dims_ok (info_block st))
    by (rewrite Hib; apply readable_dims; exact Hrd).
  assert (Hdepth : color_depth_in_bits (info_block st) = 24)
    by (rewrite Hib; apply Hrd).
  assert (Hlen54 : length (firstn 54 data) = 54%nat)
    by (rewrite length_firstn; destruct Hrd as (Hl & _); lia).
  eexists. split; [apply save_returns; assumption|].
  subst st2. cbn [file_header info_block pixels].
  rewrite app_assoc, Hfh, Hib, structs_bytes_of by apply Hrd.
  split; [apply firstn_app_exact; exact Hlen54|].
  rewrite length_app, Nat2Z.inj_add, Hlen54, <- Hib.
  destruct Hg as [Hrows Hfit]. destruct Hd as (Hw0 & _).
  rewrite encoded_rows_length, length_rev, Hrows;
    [|exact Hw0|apply Forall_rev; exact Hfit].
  rewrite row_stride_eq by assumption.
  pose proof (disk_stride_bounds (width (info_block st))) as B.
  unfold to_size_t. rewrite Z.mod_small by (pow_consts; lia).
  rewrite Z.max_r by lia. change (Z.of_nat 54) with 54. lia.
Qed.

(** The 2x2 image cut after its first pixel is written back with all of
    its 70 bytes. *)
Lemma save_after_read_length_witness :
  exists st out,
    read (one_file truncated_2x2) "cut.bmp" fresh_editor = Returns tt st /\
    save st = Returns out st /\
    firstn 54 out = firstn 54 truncated_2x2 /\
    length truncated_2x2 = 57%nat /\ Z.of_nat (length out) = 70.
Proof.
  pose (st := {| file_header := header_of truncated_2x2;
                 info_block := info_of truncated_2x2;
                 pixels := [[0; 0]; [66051; 0]];
                 fileWasRead := true |}).
  destruct (save_after_read_length (one_file truncated_2x2) "cut.bmp"
              fresh_editor st truncated_2x2 (pixels st) eq_refl eq_refl)
    as (out & Hsave & Hfirst & Hlen).
  - split; [reflexivity|]. repeat constructor; vm_compute; discriminate.
  - vm_compute. reflexivity.
  - exists st, out. repeat split; assumption.
Defined.

(** ** Crosses over crosses *)

Lemma update_update_same {A} (l : list A) : forall n v u,
  update n v (update n u l) = update n v l.
Proof.
  induction l as [|a l IH]; intros [|n] v u; cbn [update]; try reflexivity.
  now rewrite IH.
Qed.

Lemma update_comm {A} (l : list A) : forall n m v u,
  n <> m -> update n v (update m u l) = update m u (update n v l).
Proof.
  induction l as [|a l IH]; intros [|n] [|m] v u Hne; cbn [update];
    try reflexivity; [contradiction|].
  rewrite IH by congruence. reflexivity.
Qed.

Lemma cross_row_override w c1 c2 i row :
  cross_row w c2 i (cross_row w c1 i row) = cross_row w c2 i row.
Proof.
  unfold cross_row.
  destruct (Nat.eq_dec (Z.to_nat (w - 1 - i)) (Z.to_nat i)) as [E|Hne].
  - rewrite E, !update_update_same. reflexivity.
  - rewrite (update_comm _ (Z.to_nat i) (Z.to_nat (w - 1 - i)) c2 c1)
      by congruence.
    now rewrite !update_update_same.
Qed.

Lemma cross_rows_override w c1 c2 : forall n i rows,
  cross_rows w c2 n i (cross_rows w c1 n i rows) = cross_rows w c2 n i rows.
Proof.
  induction n as [|n IH]; intros i [|row rest]; try reflexivity.
  cbn [cross_rows]. now rewrite cross_row_override, IH.
Qed.

Lemma grid_fits_shape ib (px px' : grid) :
  map (@length Z) px' = map (@length Z) px ->
  grid_fits ib px -> grid_fits ib px'.
Proof.
  intros Hs [Hlen Hfit]. split.
  - rewrite <- Hlen, <- (length_map (@length Z) px'), Hs. now rewrite length_map.
  - apply (Forall_map (@length Z) (fun n => width ib <= Z.of_nat n)).
    rewrite Hs. apply Forall_map. exact Hfit.
Qed.

(** X7. After a successful [read], a cross drawn over a cross replaces it
    entirely: drawing (blue2, green2, red2) after (blue1, green1, red1)
    leaves the editor as drawing (blue2, green2, red2) alone does, and
    drawing the same cross a second time changes nothing. *)
Theorem drawCross_overrides fs file_path st0 st st1
    blue1 green1 red1 blue2 green2 red2 :
  read fs file_path st0 = Returns tt st ->
  drawCross blue1 green1 red1 st = Returns tt st1 ->
  drawCross blue2 green2 red2 st1 = drawCross blue2 green2 red2 st /\
  drawCross blue1 green1 red1 st1 = Returns tt st1.
Proof.
  intros Hread Hdraw.
  destruct (read_Returns_inv _ _ _ _ Hread) as (data & _ & Hrd & Hre & Hst).
  assert (Hflag : fileWasRead st = true) by (now rewrite Hst).
  assert (Hw : 0 <= width (info_block st) < 2 ^ 32)
    by (rewrite Hst; apply info_of_width_range).
  assert (Hh : height (info_block st) <= INT_MAX)
    by (rewrite Hst; apply Hrd).
  assert (Hg : grid_fits (info_block st) (pixels st))
    by (rewrite Hst; apply decoded_grid_fits; exact Hre).
  rewrite (drawCross_returns blue1 green1 red1 st Hflag Hw Hh Hg) in Hdraw.
  injection Hdraw as <-.
  split.
  - rewrite (drawCross_returns blue2 green2 red2 st Hflag Hw Hh Hg).
    rewrite drawCross_returns; cbn [file_header info_block pixels fileWasRead];
      try assumption; try reflexivity.
    + now rewrite cross_rows_override.
    + apply (grid_fits_shape _ (pixels st)); [apply cross_rows_shape|exact Hg].
  - rewrite drawCross_returns; cbn [file_header info_block pixels fileWasRead];
      try assumption; try reflexivity.
    + now rewrite cross_rows_override.
    + apply (grid_fits_shape _ (pixels st)); [apply cross_rows_shape|exact Hg].
Qed.

(** On the 3x2 image: a black cross, then an orange one. *)
Lemma drawCross_overrides_witness :
  exists st st1 st2,
    read (one_file image_3x2) "image.bmp" fresh_editor = Returns tt st /\
    drawCross Byte.x00 Byte.x00 Byte.x00 st = Returns tt st1 /\
    drawCross Byte.x00 Byte.xa5 Byte.xff st = Returns tt st2 /\
    drawCross Byte.x00 Byte.xa5 Byte.xff st1 = Returns tt st2 /\
    pixels st1 = [[0; 2303013; 0]; [1052946; 0; 1447704]] /\
    pixels st2 = [[42495; 2303013; 42495]; [1052946; 42495; 1447704]].
Proof.
  pose (st := {| file_header := header_of image_3x2;
                 info_block := info_of image_3x2;
                 pixels := [[2105634; 2303013; 2500392];
                            [1052946; 1250325; 1447704]];
                 fileWasRead := true |}).
  pose (st1 := {| file_header := header_of image_3x2;
                  info_block := info_of image_3x2;
                  pixels := [[0; 2303013; 0]; [1052946; 0; 1447704]];
                  fileWasRead := true |}).
  pose (st2 := {| file_header := header_of image_3x2;
                  info_block := info_of image_3x2;
                  pixels := [[42495; 2303013; 42495];
                             [1052946; 42495; 1447704]];
                  fileWasRead := true |}).
  assert (Hread : read (one_file image_3x2) "image.bmp" fresh_editor
                  = Returns tt st) by (vm_compute; reflexivity).
  assert (Hd1 : drawCross Byte.x00 Byte.x00 Byte.x00 st = Returns tt st1)
    by (vm_compute; reflexivity).
  destruct (drawCross_overrides (one_file image_3x2) "image.bmp" fresh_editor
              st st1 Byte.x00 Byte.x00 Byte.x00 Byte.x00 Byte.xa5 Byte.xff
              Hread Hd1) as [Hover _].
  exists st, st1, st2. split; [exact Hread|]. split; [exact Hd1|].
  assert (Hd2 : drawCross Byte.x00 Byte.xa5 Byte.xff st = Returns tt st2)
    by (vm_compute; reflexivity).
  split; [exact Hd2|]. split; [rewrite Hover; exact Hd2|].
  split; reflexivity.
Defined.

(** ** [save] followed by [read] *)

(** Packing the bytes [save] writes for a 24-bit color gives the color. *)
Lemma pack_unpack_color p :
  0 <= p < 2 ^ 24 -> triple_color (color_triple p) = p.
Proof.
  intros Hp. unfold triple_color, color_triple, pack_color.
  rewrite !byte.unsigned_of_Z. unfold byte.wrap.
  rewrite <- !Z.land_ones by lia. change 255 with (Z.ones 8).
  Z.bitblast; subst; Z.bitblast_core;
    rewrite ?(testbit_above p 24) by lia; try btauto.
Qed.

Lemma map_pack_unpack row :
  Forall (fun c => 0 <= c < 2 ^ 24) row ->
  map triple_color (map color_triple row) = row.
Proof.
  intros H. induction H as [|c row Hc H IH]; [reflexivity|].
  cbn [map]. now rewrite pack_unpack_color, IH.
Qed.

Lemma flat_map_unpack_triples row :
  flat_map unpack_color row = flat_map triple_bytes (map color_triple row).
Proof.
  induction row as [|c row IH]; [reflexivity|].
  cbn [map flat_map]. now rewrite IH.
Qed.

(** A matrix row of exactly [width] cells is written as its disk row. *)
Lemma encode_row_exact ib row :
  color_depth_in_bits ib = 24 ->
  24 * width ib + 31 < 2 ^ 32 ->
  Z.of_nat (length row) = width ib ->
  encode_row ib row = disk_row_bytes (disk_row_of (width ib) row).
Proof.
  intros Hd Hb Hlen. unfold encode_row, disk_row_bytes, disk_row_of, pad_row.
  cbn [row_cells row_pad].
  rewrite firstn_all2 by lia. rewrite flat_map_unpack_triples.
  f_equal. f_equal.
  rewrite row_stride_eq by (assumption || lia).
  rewrite flat_map_triple_length, length_map.
  pose proof (disk_stride_bounds (width ib)) as B.
  unfold to_size_t. rewrite Z.mod_small by (pow_consts; lia). lia.
Qed.

Lemma encode_rows_exact ib (px : grid) :
  color_depth_in_bits ib = 24 ->
  24 * width ib + 31 < 2 ^ 32 ->
  Forall (fun row => Z.of_nat (length row) = width ib /\
                     Forall (fun c => 0 <= c < 2 ^ 24) row) px ->
  flat_map (encode_row ib) px
  = pixel_section (map (disk_row_of (width ib)) px).
Proof.
  intros Hd Hb H. induction H as [|row px [Hrow _] H IH]; [reflexivity|].
  unfold pixel_section in *. cbn [map flat_map].
  now rewrite encode_row_exact, IH.
Qed.

Lemma header_of_prefix data body :
  (54 <= length data)%nat ->
  header_of (firstn 54 data ++ body) = header_of data.
Proof.
  intros Hlen. unfold header_of, field, sizeof_BMPFileHeader. cbn [skipn].
  rewrite firstn_app, length_firstn.
  replace (14 - Nat.min 54 (length data))%nat with 0%nat by lia.
  rewrite firstn_0, app_nil_r, firstn_firstn. reflexivity.
Qed.

Lemma info_of_prefix data body :
  (54 <= length data)%nat ->
  info_of (firstn 54 data ++ body) = info_of data.
Proof.
  intros Hlen. unfold info_of, field, sizeof_BMPFileHeader,
    sizeof_BMPFileInfoBlock.
  rewrite skipn_app, length_firstn.
  replace (14 - Nat.min 54 (length data))%nat with 0%nat by lia.
  rewrite skipn_0, skipn_firstn_comm.
  change (54 - 14)%nat with 40%nat.
  rewrite firstn_app_exact; [reflexivity|].
  rewrite length_firstn, length_skipn. lia.
Qed.

Lemma exact_grid_fits ib px : exact_grid ib px -> grid_fits ib px.
Proof.
  intros [Hlen H]. split; [exact Hlen|].
  eapply Forall_impl; [|exact H]. intros row [Hr _]. lia.
Qed.

Lemma disk_rows_of_fit w (px : grid) :
  Forall (fun row => Z.of_nat (length row) = w /\
                     Forall (fun c => 0 <= c < 2 ^ 24) row) px ->
  Forall (row_fits w) (map (disk_row_of w) px).
Proof.
  intros H. apply Forall_map. eapply Forall_impl; [|exact H].
  intros row [Hr _]. unfold row_fits, disk_row_of. cbn [row_cells row_pad].
  rewrite length_map, repeat_length.
  pose proof (disk_stride_bounds w). split; [exact Hr|lia].
Qed.

Lemma disk_rows_of_colors w (px : grid) :
  Forall (fun row => Z.of_nat (length row) = w /\
                     Forall (fun c => 0 <= c < 2 ^ 24) row) px ->
  map (fun r => map triple_color (row_cells r)) (map (disk_row_of w) px) = px.
Proof.
  intros H. induction H as [|row px [_ Hc] H IH]; [reflexivity|].
  cbn [map disk_row_of row_cells]. now rewrite map_pack_unpack, IH.
Qed.

(** An editor whose structs came from a readable file with the pixel data
    at offset 54, and whose matrix is exact: what [save] writes is read
    back into an empty editor as the same structs and the same matrix. *)
Lemma save_then_read_same st data0 :
  readable data0 ->
  offset_to_pixel_data (header_of data0) = 54 ->
  24 * width (info_of data0) + 31 < 2 ^ 32 ->
  file_header st = header_of data0 ->
  info_block st = info_of data0 ->
  exact_grid (info_block st) (pixels st) ->
  exists out,
    save st = Returns out st /\
    firstn 54 out = firstn 54 data0 /\
    forall fs file_path st1,
      fs file_path = Some out ->
      pixels st1 = [] ->
      read fs file_path st1 =
        Returns tt {| file_header := file_header st;
                      info_block := info_block st;
                      pixels := pixels st;
                      fileWasRead := true |}.
Proof.
  intros Hrd Hoff Hb Hfh Hib Hex.
  pose proof Hrd as (Hlen & Hm & Hd & Hdims).
  assert (Hlen54 : length (firstn 54 data0) = 54%nat)
    by (rewrite length_firstn; lia).
  pose proof Hex as [Hrows Hcells].
  set (rows := map (disk_row_of (width (info_of data0))) (rev (pixels st))).
  exists (firstn 54 data0 ++ pixel_section rows).
  split; [|split; [apply firstn_app_exact; exact Hlen54|]].
  - rewrite save_returns;
      [|rewrite Hib; exact Hdims|apply exact_grid_fits; exact Hex].
    rewrite app_assoc, Hfh, Hib, structs_bytes_of by exact Hlen.
    unfold rows. rewrite <- encode_rows_exact; try assumption; [reflexivity|].
    apply Forall_rev. rewrite <- Hib. exact Hcells.
  - intros fs file_path st1 Hfs Hnil.
    set (out := firstn 54 data0 ++ pixel_section rows) in *.
    assert (Hho : header_of out = header_of data0)
      by (apply header_of_prefix; exact Hlen).
    assert (Hio : info_of out = info_of data0)
      by (apply info_of_prefix; exact Hlen).
    assert (Hro : readable out).
    { unfold readable. rewrite Hho, Hio. repeat split; try assumption;
        try apply Hdims.
      unfold out. rewrite length_app, Hlen54. lia. }
    rewrite (read_returns fs file_path st1 out Hfs Hro)
      by (rewrite Hnil; apply reusable_nil).
    rewrite Hho, Hio, Hfh, Hib. f_equal. f_equal.
    rewrite Hnil, decoded_grid_fresh.
    assert (Hfit : Forall (row_fits (width (info_of out))) rows).
    { rewrite Hio. apply disk_rows_of_fit. apply Forall_rev.
      rewrite <- Hib. exact Hcells. }
    assert (Hsec : remaining (pixel_stream out) = pixel_section rows ++ []).
    { unfold remaining, pixel_stream. cbn [gpos contents].
      rewrite Hho, Hoff. change (Z.to_nat 54) with 54%nat.
      unfold out. rewrite skipn_app, Hlen54, Nat.sub_diag.
      rewrite skipn_all2 by lia. now rewrite app_nil_r. }
    destruct (scan_rows_layout (info_of out)
                ltac:(rewrite Hio; exact Hd) (info_of_width_range out)
                rows (pixel_stream out) [] Hfit eq_refl Hsec)
      as (s' & E & _).
    replace (Z.to_nat (height (info_of out))) with (length rows)
      by (unfold rows; rewrite length_map, length_rev, Hio, <- Hib; lia).
    rewrite E. cbn [fst]. unfold rows.
    rewrite disk_rows_of_colors
      by (apply Forall_rev; rewrite <- Hib; exact Hcells).
    apply rev_involutive.
Qed.

(** X8. What [save] writes can be read back. After a successful [read] of
    a file whose pixel data is at offset 54 and whose width keeps
    [24 * width + 31] below 2^32, put any matrix of exactly [height] rows
    of [width] 24-bit colors in the editor: [save] returns, and [read] of
    the bytes it wrote into an empty editor returns the same structs and
    that matrix, cell for cell. *)
Theorem save_then_read fs0 file_path0 st0 st px :
  read fs0 file_path0 st0 = Returns tt st ->
  offset_to_pixel_data (file_header st) = 54 ->
  24 * width (info_block st) + 31 < 2 ^ 32 ->
  exact_grid (info_block st) px ->
  let st2 := {| file_header := file_header st; info_block := info_block st;
                pixels := px; fileWasRead := true |} in
  exists out,
    save st2 = Returns out st2 /\
    forall fs file_path st1,
      fs file_path = Some out ->
      pixels st1 = [] ->
      read fs file_path st1 = Returns tt st2.
Proof.
  intros Hread Hoff Hb Hex st2.
  destruct (read_Returns_inv _ _ _ _ Hread) as (data & _ & Hrd & _ & Hst).
  assert (Hfh : file_header st = header_of data) by (now rewrite Hst).
  assert (Hib : info_block st = info_of data) by (now rewrite Hst).
  destruct (save_then_read_same st2 data Hrd) as (out & Hsave & _ & Hback);
    subst st2; cbn [file_header info_block pixels]; try congruence.
  exists out. split; [exact Hsave|exact Hback].
Qed.

(** The 3x2 image, read, edited to another 3x2 matrix, saved and read
    again. *)
Lemma save_then_read_witness :
  exists st out st2,
    read (one_file image_3x2) "image.bmp" fresh_editor = Returns tt st /\
    save {| file_header := file_header st; info_block := info_block st;
            pixels := [[1; 2; 3]; [16777215; 0; 42495]];
            fileWasRead := true |} = Returns out st2 /\
    read (one_file out) "copy.bmp" fresh_editor = Returns tt st2 /\
    pixels st2 = [[1; 2; 3]; [16777215; 0; 42495]].
Proof.
  pose (st := {| file_header := header_of image_3x2;
                 info_block := info_of image_3x2;
                 pixels := [[2105634; 2303013; 2500392];
                            [1052946; 1250325; 1447704]];
                 fileWasRead := true |}).
  assert (Hread : read (one_file image_3x2) "image.bmp" fresh_editor
                  = Returns tt st) by (vm_compute; reflexivity).
  destruct (save_then_read (one_file image_3x2) "image.bmp" fresh_editor st
              [[1; 2; 3]; [16777215; 0; 42495]] Hread)
    as (out & Hsave & Hback).
  - vm_compute. reflexivity.
  - vm_compute. reflexivity.
  - split; [reflexivity|].
    repeat constructor; vm_compute; congruence.
  - exists st, out. eexists. split; [exact Hread|].
    split; [exact Hsave|]. split; [|reflexivity].
    apply Hback; reflexivity.
Defined.

(** ** Reading the same file again *)

Lemma overwrite_idem {A} (new old : list A) :
  overwrite new (overwrite new old) = overwrite new old.
Proof.
  unfold overwrite. f_equal.
  rewrite skipn_app, Nat.sub_diag, skipn_all. reflexivity.
Qed.

Lemma overlay_idem : forall scanned old,
  overlay scanned (overlay scanned old) = overlay scanned old.
Proof.
  induction scanned as [|cs scanned IH]; intros [|o old]; try reflexivity.
  unfold overlay in *. cbn [combine map fst snd].
  now rewrite overwrite_idem, IH.
Qed.

Lemma resize_same n fill (px : grid) :
  Z.of_nat (length px) = n -> resize n fill px = px.
Proof.
  intros Hlen. unfold resize.
  rewrite firstn_all2 by lia.
  replace (Z.to_nat n - length px)%nat with 0%nat by lia.
  apply app_nil_r.
Qed.

Lemma grid_fits_reusable ib px : grid_fits ib px -> reusable ib px.
Proof. intros [_ Hfit]. apply Forall_firstn. exact Hfit. Qed.

(** X12. Reading the same file again into the editor that just read it
    returns and leaves the editor exactly as it is. *)
Theorem read_again_same fs file_path st st' :
  read fs file_path st = Returns tt st' ->
  read fs file_path st' = Returns tt st'.
Proof.
  intros Hread.
  destruct (read_Returns_inv _ _ _ _ Hread)
    as (data & Hfs & Hrd & Hre & ->).
  pose proof (decoded_grid_fits data (pixels st) Hre) as Hg.
  rewrite (read_returns fs file_path _ data Hfs Hrd)
    by (apply grid_fits_reusable; exact Hg).
  cbn [pixels]. f_equal. f_equal.
  unfold decoded_grid at 1. cbv zeta.
  rewrite resize_same by apply Hg.
  unfold decoded_grid. cbv zeta.
  now rewrite rev_involutive, overlay_idem.
Qed.

Lemma read_again_same_witness :
  read (one_file image_2x2) "image.bmp" loaded_2x2 = Returns tt loaded_2x2.
Proof.
  apply (read_again_same (one_file image_2x2) "image.bmp" fresh_editor).
  vm_compute. reflexivity.
Defined.

(** ** Short files *)

(** X13. A file shorter than the two structs overwrites only the bytes it
    has. With fewer than 14 bytes the info block is untouched and the
    file header keeps its last bytes; with 14 to 53 bytes the file header
    is the one of the file and the info block keeps its last bytes. In
    both cases [read] throws the read error. *)
Theorem read_short_overwrites_prefix fs file_path st data :
  fs file_path = Some data ->
  (length data < 54)%nat ->
  exists st',
    read fs file_path st = Throws ReadError st' /\
    file_header_bytes (file_header st')
      = overwrite (firstn 14 data) (file_header_bytes (file_header st)) /\
    info_block_bytes (info_block st')
      = overwrite (skipn 14 data) (info_block_bytes (info_block st)).
Proof.
  intros Hfs Hlen. unfold read. rewrite Hfs.
  destruct (Nat.lt_ge_cases (length data) 14) as [Hs|Hl].
  - rewrite stream_read_short by (try reflexivity; exact Hs).
    cbn [failbit]. eexists. split; [reflexivity|].
    cbn [file_header info_block].
    change (remaining (open data)) with data.
    rewrite (firstn_all2 data) by lia.
    split.
    + apply file_header_bytes_parse.
      rewrite overwrite_length; rewrite file_header_bytes_length;
        [reflexivity|unfold sizeof_BMPFileHeader; lia].
    + rewrite (skipn_all2 data) by lia. reflexivity.
  - assert (H1 : length (firstn 14 data) = 14%nat)
      by (rewrite length_firstn; lia).
    rewrite (stream_read_exact sizeof_BMPFileHeader (open data)
               (firstn 14 data) (skipn 14 data) H1 eq_refl)
      by (symmetry; apply firstn_skipn).
    cbn [failbit]. unfold open. cbn [contents gpos].
    change (0 + sizeof_BMPFileHeader)%nat with 14%nat.
    rewrite stream_read_short;
      [|reflexivity
       |unfold remaining; cbn [gpos contents];
        rewrite length_skipn; unfold sizeof_BMPFileInfoBlock; lia].
    cbn [failbit]. eexists. split; [reflexivity|].
    cbn [file_header info_block].
    change (remaining {| contents := data; gpos := 14; failbit := false |})
      with (skipn 14 data).
    split.
    + apply file_header_bytes_parse.
      rewrite overwrite_length; rewrite file_header_bytes_length;
        [reflexivity|unfold sizeof_BMPFileHeader; lia].
    + apply info_block_bytes_parse.
      rewrite overwrite_length; rewrite info_block_bytes_length;
        [reflexivity|rewrite length_skipn; unfold sizeof_BMPFileInfoBlock; lia].
Qed.

(** Twenty bytes into a fresh editor: the 14 bytes of the file header are
    those of the file, and only the first 6 bytes of the info block are
    overwritten. *)
Lemma read_short_overwrites_prefix_witness :
  exists st',
    read (one_file not_bmp_short) "short.bin" fresh_editor
    = Throws ReadError st' /\
    file_header_bytes (file_header st') = firstn 14 not_bmp_short /\
    info_block_bytes (info_block st')
    = skipn 14 not_bmp_short ++ repeat Byte.x00 34.
Proof.
  destruct (read_short_overwrites_prefix (one_file not_bmp_short) "short.bin"
              fresh_editor not_bmp_short eq_refl ltac:(vm_compute; lia))
    as (st' & Hread & Hfh & Hib).
  exists st'. split; [exact Hread|]. split; [exact Hfh|exact Hib].
Defined.

(** ** main *)

Lemma read_rejection fs file_path st e :
  rejection fs file_path = Some e ->
  exists st', read fs file_path st = Throws e st'.
Proof.
  unfold rejection. intros Hrej.
  destruct (fs file_path) as [data|] eqn:Hfs.
  - destruct (Nat.ltb_spec (length data) 54) as [Hshort|Hlen].
    + injection Hrej as <-.
      destruct (read_short_file fs file_path st data Hfs Hshort)
        as (st1 & E & _).
      exists st1. exact E.
    + rewrite (read_past_headers fs file_path st data Hfs Hlen). cbv zeta.
      destruct (negb (type_of_file (header_of data) =? 19778)).
      { injection Hrej as <-. eexists. reflexivity. }
      destruct (negb (color_depth_in_bits (info_of data) =? 24));
        [|discriminate].
      injection Hrej as <-. eexists. reflexivity.
  - injection Hrej as <-. unfold read. rewrite Hfs. eexists. reflexivity.
Qed.

(** X10. When [read] rejects the input (no such file, fewer than 54
    bytes, wrong signature, depth other than 24), [main] prints only its
    first prompt, sends the message of the exception to [std::cerr],
    creates or changes no file, never asks for the output path and still
    returns 0. *)
Theorem main_rejected_input fh0 ib0 creatable fs
    input_file_path output_file_path e :
  rejection fs input_file_path = Some e ->
  main fh0 ib0 creatable fs input_file_path output_file_path
  = Some {| stdout := prompt_input;
            stderr := what e input_file_path;
            disk := fs;
            exit_code := 0 |}.
Proof.
  intros Hrej.
  destruct (read_rejection fs input_file_path (new_editor fh0 ib0) e Hrej)
    as (st' & E).
  unfold main. cbv zeta. rewrite E. reflexivity.
Qed.

Lemma main_rejected_input_witness :
  main zero_file_header zero_info_block (fun _ => true)
       (one_file not_bmp_3x2) "other.bmp" "out.bmp"
  = Some {| stdout := prompt_input;
            stderr := "Error! The specified file is not of the BMP type.";
            disk := one_file not_bmp_3x2;
            exit_code := 0 |}.
Proof.
  apply (main_rejected_input zero_file_header zero_info_block (fun _ => true)
           (one_file not_bmp_3x2) "other.bmp" "out.bmp" NotBmpType).
  vm_compute. reflexivity.
Defined.

Lemma update_Forall {A} (P : A -> Prop) v (l : list A) : forall n,
  P v -> Forall P l -> Forall P (update n v l).
Proof.
  induction l as [|a l IH]; intros [|n] Hv Hl; cbn [update];
    try assumption; inversion Hl; subst; constructor; auto.
Qed.

Lemma cross_rows_exact ib c : forall n i px,
  0 <= c < 2 ^ 24 ->
  exact_grid ib px ->
  exact_grid ib (cross_rows (width ib) c n i px).
Proof.
  intros n i px Hc [Hlen H]. split.
  - rewrite <- Hlen, <- !(length_map (@length Z)), cross_rows_shape.
    reflexivity.
  - clear Hlen. revert i px H.
    induction n as [|n IH]; intros i px H; [destruct px; exact H|].
    destruct px as [|row rest]; [exact H|].
    inversion H as [|? ? [Hr Hcs] H']; subst.
    cbn [cross_rows]. constructor; [|apply IH; exact H'].
    split; [now rewrite cross_row_length|].
    unfold cross_row. apply update_Forall; [exact Hc|].
    apply update_Forall; assumption.
Qed.

Lemma decoded_grid_fresh_layout data rows rest :
  color_depth_in_bits (info_of data) = 24 ->
  holds_image data rows rest ->
  decoded_grid data []
  = rev (map (fun r => map triple_color (row_cells r)) rows).
Proof.
  intros Hd (Hsec & Hrows & Hfit). rewrite decoded_grid_fresh.
  destruct (scan_rows_layout (info_of data) Hd (info_of_width_range data)
              rows (pixel_stream data) rest Hfit eq_refl Hsec)
    as (s' & E & _).
  replace (Z.to_nat (height (info_of data))) with (length rows) by lia.
  now rewrite E.
Qed.

Lemma write_file_lookup creatable fs path data :
  creatable path = true ->
  write_file creatable fs path data path = Some data /\
  forall p, p <> path -> write_file creatable fs path data p = fs p.
Proof.
  intros Hc. unfold write_file. rewrite Hc, String.eqb_refl.
  split; [reflexivity|]. intros p Hp.
  destruct (String.eqb_spec p path); [contradiction|reflexivity].
Qed.

(** [main] on a readable file that holds its image, with the pixel data
    at offset 54 and no wrap-around in [row_stride]. *)
Lemma main_accepted_input fh0 ib0 creatable fs
    input_file_path output_file_path data rows rest :
  fs input_file_path = Some data ->
  readable data ->
  holds_image data rows rest ->
  offset_to_pixel_data (header_of data) = 54 ->
  24 * width (info_of data) + 31 < 2 ^ 32 ->
  let w := width (info_of data) in
  let image := rev (map (fun r => map triple_color (row_cells r)) rows) in
  let crossed :=
    cross_rows w orange (Z.to_nat (Z.min (height (info_of data)) w)) 0 image in
  exists out,
    main fh0 ib0 creatable fs input_file_path output_file_path
    = Some {| stdout :=
                String.append
                  (String.append
                     (String.append
                        (String.append
                           (String.append prompt_input title_before)
                           (join (map (row_text w) image)))
                        title_after)
                     (join (map (row_text w) crossed)))
                  prompt_output;
              stderr := EmptyString;
              disk := write_file creatable fs output_file_path out;
              exit_code := 0 |} /\
    firstn 54 out = firstn 54 data /\
    (forall fs' file_path st1,
        fs' file_path = Some out ->
        pixels st1 = [] ->
        read fs' file_path st1
        = Returns tt {| file_header := header_of data;
                        info_block := info_of data;
                        pixels := crossed;
                        fileWasRead := true |}).
Proof.
  intros Hfs Hrd Himg Hoff Hb w image crossed.
  pose proof Hrd as (Hlen & Hm & Hd & Hdims).
  pose proof (info_of_width_range data) as Wr.
  assert (Hgrid : decoded_grid data [] = image)
    by (apply (decoded_grid_fresh_layout data rows rest Hd Himg)).
  assert (Hex : exact_grid (info_of data) image)
    by (rewrite <- Hgrid; apply decoded_grid_exact).
  assert (Hexc : exact_grid (info_of data) crossed)
    by (apply cross_rows_exact; [vm_compute; split; [discriminate|reflexivity]
                                |exact Hex]).
  set (object1 := {| file_header := header_of data; info_block := info_of data;
                     pixels := image; fileWasRead := true |}).
  set (object2 := {| file_header := header_of data; info_block := info_of data;
                     pixels := crossed; fileWasRead := true |}).
  assert (Hread : read fs input_file_path (new_editor fh0 ib0)
                  = Returns tt object1).
  { rewrite (read_returns fs input_file_path _ data Hfs Hrd)
      by apply reusable_nil.
    cbn [pixels new_editor]. now rewrite Hgrid. }
  assert (Hp1 : printImage object1
                = Returns (join (map (row_text w) image)) object1)
    by (apply printImage_returns; [exact Hdims|apply exact_grid_fits, Hex]).
  assert (Hdraw : drawCross Byte.x00 Byte.xa5 Byte.xff object1
                  = Returns tt object2).
  { rewrite drawCross_returns; cbn [fileWasRead info_block pixels];
      [reflexivity|reflexivity|exact Wr|apply Hdims
      |apply exact_grid_fits, Hex]. }
  assert (Hp2 : printImage object2
                = Returns (join (map (row_text w) crossed)) object2)
    by (apply printImage_returns; [exact Hdims|apply exact_grid_fits, Hexc]).
  destruct (save_then_read_same object2 data Hrd Hoff Hb eq_refl eq_refl Hexc)
    as (out & Hsave & Hfirst & Hback).
  exists out. split; [|split; [exact Hfirst|]].
  - unfold main. cbv zeta. rewrite Hread, Hp1, Hdraw, Hp2, Hsave. reflexivity.
  - intros fs' file_path st1 Hfs' Hnil. apply Hback; assumption.
Qed.

(** X11. One run of the program on a readable file that holds its image,
    with the pixel data at offset 54 and [24 * width + 31 < 2^32], when
    the output file can be created. [main] returns 0 with nothing on
    [std::cerr]; it prints the image, top row first, before and after the
    orange cross (0x00A5FF); the output file starts with the 54 header
    bytes of the input, every other file is untouched, and reading the
    output file into an empty editor gives the structs of the input and
    the image with the cross. *)
Theorem main_draws_orange_cross fh0 ib0 creatable fs
    input_file_path output_file_path data rows rest :
  fs input_file_path = Some data ->
  readable data ->
  holds_image data rows rest ->
  offset_to_pixel_data (header_of data) = 54 ->
  24 * width (info_of data) + 31 < 2 ^ 32 ->
  creatable output_file_path = true ->
  let w := width (info_of data) in
  let image := rev (map (fun r => map triple_color (row_cells r)) rows) in
  let crossed :=
    cross_rows w orange (Z.to_nat (Z.min (height (info_of data)) w)) 0 image in
  exists r out,
    main fh0 ib0 creatable fs input_file_path output_file_path = Some r /\
    stdout r =
      String.append
        (String.append
           (String.append
              (String.append (String.append prompt_input title_before)
                             (join (map (row_text w) image)))
              title_after)
           (join (map (row_text w) crossed)))
        prompt_output /\
    stderr r = EmptyString /\
    exit_code r = 0 /\
    disk r output_file_path = Some out /\
    (forall p, p <> output_file_path -> disk r p = fs p) /\
    firstn 54 out = firstn 54 data /\
    (forall st1,
        pixels st1 = [] ->
        read (disk r) output_file_path st1
        = Returns tt {| file_header := header_of data;
                        info_block := info_of data;
                        pixels := crossed;
                        fileWasRead := true |}).
Proof.
  intros Hfs Hrd Himg Hoff Hb Hc w image crossed.
  destruct (main_accepted_input fh0 ib0 creatable fs input_file_path
              output_file_path data rows rest Hfs Hrd Himg Hoff Hb)
    as (out & Hmain & Hfirst & Hback).
  destruct (write_file_lookup creatable fs output_file_path out Hc)
    as [Hout Hother].
  eexists. exists out. split; [exact Hmain|].
  cbn [stdout stderr exit_code disk].
  repeat (split; [first [reflexivity|assumption]|]).
  intros st1 Hnil. apply Hback; assumption.
Qed.

(** The program on the 3x2 image. *)
Lemma main_draws_orange_cross_witness :
  exists r out,
    main zero_file_header zero_info_block (fun _ => true)
         (one_file image_3x2) "image.bmp" "out.bmp" = Some r /\
    stderr r = EmptyString /\
    disk r "out.bmp"%string = Some out /\
    read (disk r) "out.bmp" fresh_editor
    = Returns tt {| file_header := header_of image_3x2;
                    info_block := info_of image_3x2;
                    pixels := [[42495; 2303013; 42495];
                               [1052946; 42495; 1447704]];
                    fileWasRead := true |}.
Proof.
  destruct (main_draws_orange_cross zero_file_header zero_info_block
              (fun _ => true) (one_file image_3x2) "image.bmp" "out.bmp"
              image_3x2 [row_S0; row_S1] [] eq_refl readable_image_3x2
              holds_image_3x2 eq_refl ltac:(vm_compute; reflexivity) eq_refl)
    as (r & out & Hmain & _ & Herr & _ & Hout & _ & _ & Hback).
  exists r, out. split; [exact Hmain|]. split; [exact Herr|].
  split; [exact Hout|]. exact (Hback fresh_editor eq_refl).
Defined.

(** X14. The same run when the output file cannot be created: [save] does
    not test its stream, so [main] still returns 0 with nothing on
    [std::cerr], prints what it prints when the file can be created, and
    leaves every file as it was. *)
Theorem main_silent_without_output fh0 ib0 creatable fs
    input_file_path output_file_path data rows rest :
  fs input_file_path = Some data ->
  readable data ->
  holds_image data rows rest ->
  offset_to_pixel_data (header_of data) = 54 ->
  24 * width (info_of data) + 31 < 2 ^ 32 ->
  creatable output_file_path = false ->
  exists r,
    main fh0 ib0 creatable fs input_file_path output_file_path = Some r /\
    stderr r = EmptyString /\
    exit_code r = 0 /\
    disk r = fs /\
    (forall r', main fh0 ib0 (fun _ => true) fs input_file_path
                     output_file_path = Some r' ->
                stdout r' = stdout r).
Proof.
  intros Hfs Hrd Himg Hoff Hb Hc.
  destruct (main_accepted_input fh0 ib0 creatable fs input_file_path
              output_file_path data rows rest Hfs Hrd Himg Hoff Hb)
    as (out & Hmain & _).
  destruct (main_accepted_input fh0 ib0 (fun _ => true) fs input_file_path
              output_file_path data rows rest Hfs Hrd Himg Hoff Hb)
    as (out' & Hmain' & _).
  eexists. split; [exact Hmain|]. cbn [stdout stderr exit_code disk].
  split; [reflexivity|]. split; [reflexivity|].
  split; [unfold write_file; now rewrite Hc|].
  intros r' Hr'. rewrite Hmain' in Hr'. injection Hr' as <-. reflexivity.
Qed.

(** The program on the 3x2 image when no file can be created. *)
Lemma main_silent_without_output_witness :
  exists r,
    main zero_file_header zero_info_block (fun _ => false)
         (one_file image_3x2) "image.bmp" "out.bmp" = Some r /\
    stderr r = EmptyString /\ exit_code r = 0 /\
    disk r = one_file image_3x2.
Proof.
  destruct (main_silent_without_output zero_file_header zero_info_block
              (fun _ => false) (one_file image_3x2) "image.bmp" "out.bmp"
              image_3x2 [row_S0; row_S1] [] eq_refl readable_image_3x2
              holds_image_3x2 eq_refl ltac:(vm_compute; reflexivity) eq_refl)
    as (r & Hmain & Herr & Hexit & Hdisk & _).
  exists r. repeat split; assumption.
Defined.

(** ** Images without pixels *)




